(** * neural-pipeline: checkpoint packer and image augmentations

    A shallow embedding of
    - [tonet/data_processor/state_manager.py] (class [StateManager]) and
    - [tonet/data_conveyor/augmentations.py] (class [Augmentation] and its
      subclasses),
    followed by the properties of the code that the specification states.

    Conventions of the embedding
    - Python exceptions are values of [exn]; a computation is a function from
      a state to an [outcome] and the state reached.  The state survives an
      exception, as the fields of a Python object and the files on disk do.
    - The filesystem is a finite map from path strings to nodes.  Paths are
      compared as strings (the program never normalises a path), symbolic
      links, permissions and missing parent directories are not modelled.
    - The zip container is an interface ([ZipFormat]) with the one law the
      program relies on: reading back what was written gives the members
      written.  A small concrete container is provided to run examples.
    - Random draws come from an explicit entropy tape, one for Python's
      [random] module and one for [numpy.random].
    - numpy is the library as it is now.  A list used as an index is one
      index array (numpy 1.23 and later; older versions read a list of
      arrays as a tuple of indices).  [numpy.random.randint] returns the
      empty array for a count of 0 before it looks at the range.  An image
      is an array of dtype uint8; its arithmetic with a Python integer keeps
      the dtype and raises when the integer does not fit it.
    - A float is the rational it denotes; a float operation rounds the exact
      result to the nearest binary64 number. *)

From Stdlib Require Import ZArith QArith Qround Qpower Qabs Lia Lqa.
From Stdlib Require Import List String Ascii.
From Stdlib.Strings Require Import Byte.
From stdpp Require Import base option list gmap strings.

Local Open Scope Z_scope.
Local Open Scope string_scope.
Local Open Scope list_scope.

(** ** Exceptions and the state-and-exception monad *)

Inductive exn : Type :=
| FileNotFoundError (path : string)
| IsADirectoryError (path : string)
| NotADirectoryError (path : string)
| FileExistsError (path : string)
| BadZipFile
| KeyError (key : string)
| ValueError
| TypeError
| IndexError
| OverflowError.

Inductive outcome (A : Type) : Type :=
| Ok (a : A)
| Raise (e : exn).
Arguments Ok {A} a.
Arguments Raise {A} e.

Definition M (S A : Type) : Type := S -> outcome A * S.

Definition ret {S A} (a : A) : M S A := fun s => (Ok a, s).

Definition raise {S A} (e : exn) : M S A := fun s => (Raise e, s).

Definition bind {S A B} (c : M S A) (k : A -> M S B) : M S B :=
  fun s => match c s with
           | (Ok a, s') => k a s'
           | (Raise e, s') => (Raise e, s')
           end.

Definition get {S} : M S S := fun s => (Ok s, s).

Definition modify {S} (f : S -> S) : M S unit := fun s => (Ok tt, f s).

Definition lift_outcome {S A} (o : outcome A) : M S A := fun s => (o, s).

Declare Scope py_scope.
Delimit Scope py_scope with py.
Notation "'let!' x ':=' c 'in' k" := (bind c (fun x => k))
  (at level 10, x pattern, c at level 100, k at level 200) : py_scope.
Notation "c1 '>>' c2" := (bind c1 (fun _ => c2))
  (at level 100, c2 at level 200, right associativity) : py_scope.
Local Open Scope py_scope.

(** ** Paths ([os.path], POSIX flavour) *)

Definition is_sep (c : ascii) : bool := Ascii.eqb c "/"%char.

Definition startswith_sep (s : string) : bool :=
  match s with
  | String c _ => is_sep c
  | EmptyString => false
  end.

Fixpoint endswith_sep (s : string) : bool :=
  match s with
  | EmptyString => false
  | String c EmptyString => is_sep c
  | String _ r => endswith_sep r
  end.

Fixpoint has_sep (s : string) : bool :=
  match s with
  | EmptyString => false
  | String c r => is_sep c || has_sep r
  end.

(** [os.path.join(a, b)]: an absolute [b] wins, otherwise [b] is appended
    with one separator unless [a] is empty or already ends with one. *)
Definition path_join (a b : string) : string :=
  if startswith_sep b then b
  else if String.eqb a "" || endswith_sep a then a ++ b
  else a ++ "/" ++ b.

(** [os.path.basename(p)]: what follows the last separator. *)
Fixpoint basename (p : string) : string :=
  match p with
  | EmptyString => EmptyString
  | String _ r => if has_sep p then basename r else p
  end.

(** ** The filesystem *)

Inductive node : Type :=
| File (data : list byte)
| Dir.

Abbreviation disk := (gmap string node).

Definition exists_ (d : disk) (p : string) : bool :=
  match d !! p with Some _ => true | None => false end.

Definition isfile (d : disk) (p : string) : bool :=
  match d !! p with Some (File _) => true | _ => false end.

Definition isdir (d : disk) (p : string) : bool :=
  match d !! p with Some Dir => true | _ => false end.

(** [os.remove]: unlinks a regular file. *)
Definition os_remove (p : string) : M disk unit :=
  fun d => match d !! p with
           | None => (Raise (FileNotFoundError p), d)
           | Some Dir => (Raise (IsADirectoryError p), d)
           | Some (File _) => (Ok tt, delete p d)
           end.

(** [os.rename(src, dst)] for a regular file [src]: it replaces a regular file
    at [dst] and refuses a directory there.  The program only renames paths
    it has just tested with [os.path.isfile]; for a directory [src] the node
    alone is moved when [dst] is free. *)
Definition os_rename (src dst : string) : M disk unit :=
  fun d => match d !! src with
           | None => (Raise (FileNotFoundError src), d)
           | Some (File bs) =>
               match d !! dst with
               | Some Dir => (Raise (IsADirectoryError dst), d)
               | _ => (Ok tt, <[dst := File bs]> (delete src d))
               end
           | Some Dir =>
               match d !! dst with
               | Some (File _) => (Raise (NotADirectoryError dst), d)
               | _ => (Ok tt, <[dst := Dir]> (delete src d))
               end
           end.

(** ** The zip container ([zipfile.ZipFile]) *)

Inductive zentry : Type :=
| ZFile (name : string) (data : list byte)
| ZDir (name : string).

Class ZipFormat : Type := {
  zip_encode : list zentry -> list byte;
  zip_decode : list byte -> option (list zentry);
  zip_decode_encode : forall es, zip_decode (zip_encode es) = Some es
}.

Section StateManager.
Context `{ZipFormat}.

(** [ZipFile(path, 'w')] truncates [path] when it opens it.  Inside the [with]
    block the handle collects the members written; leaving the block, also by
    an exception, closes the handle, which writes the archive out.  While the
    block runs the archive reads as empty.  [ZipFile.write(filename, arcname)]
    stores a regular file under [arcname] and a directory as a directory
    member; the names given by this program are base names of existing
    files, which zipfile stores as they are. *)
Definition ZipFile_write (filename arcname : string)
  : M (disk * list zentry) unit :=
  fun '(d, z) =>
    match d !! filename with
    | None => (Raise (FileNotFoundError filename), (d, z))
    | Some Dir => (Ok tt, (d, z ++ [ZDir arcname]))
    | Some (File bs) => (Ok tt, (d, z ++ [ZFile arcname bs]))
    end.

Definition with_ZipFile_w (path : string) (body : M (disk * list zentry) unit)
  : M disk unit :=
  fun d =>
    match d !! path with
    | Some Dir => (Raise (IsADirectoryError path), d)
    | _ =>
        let '(r, (d', z)) := body (<[path := File []]> d, []) in
        (r, <[path := File (zip_encode z)]> d')
    end.

(** [ZipFile.extractall(dir)]: every member goes to [os.path.join(dir, name)],
    replacing a regular file there.  Member names written by this program are
    base names, on which zipfile's cleaning of member names is the identity;
    for other names (with a separator, empty, [.] or [..]) zipfile drops
    components before it joins, which is not modelled: the statements about
    extraction are about plain base names. *)
Definition extract_member (dir : string) (e : zentry) : M disk unit :=
  fun d =>
    match e with
    | ZFile name data =>
        let target := path_join dir name in
        match d !! target with
        | Some Dir => (Raise (IsADirectoryError target), d)
        | _ => (Ok tt, <[target := File data]> d)
        end
    | ZDir name =>
        let target := path_join dir name in
        match d !! target with
        | Some Dir => (Ok tt, d)
        | Some (File _) => (Raise (FileExistsError target), d)
        | None => (Ok tt, <[target := Dir]> d)
        end
    end.

Fixpoint extractall (dir : string) (es : list zentry) : M disk unit :=
  match es with
  | [] => ret tt
  | e :: rest => extract_member dir e >> extractall dir rest
  end.

Definition with_ZipFile_r (path : string) (body : list zentry -> M disk unit)
  : M disk unit :=
  fun d =>
    match d !! path with
    | None => (Raise (FileNotFoundError path), d)
    | Some Dir => (Raise (IsADirectoryError path), d)
    | Some (File bs) =>
        match zip_decode bs with
        | None => (Raise BadZipFile, d)
        | Some es => body es d
        end
    end.

(** ** [FileStructManager]

    The path manager is an external collaborator: its three queries used
    here are taken as given values. *)
Record FileStructManager : Type := {
  weights_dir : string;
  weights_file : string;
  optimizer_state_file : string
}.

(** ** [StateManager] *)

Record StateManager : Type := {
  file_struct_manager : FileStructManager;
  files : gmap string string;
  preffix : option string
}.

(** The object and the disk it works on. *)
Record world : Type := {
  self : StateManager;
  fs : disk
}.

Definition on_disk {A} (c : M disk A) : M world A :=
  fun w => let '(r, d) := c (fs w) in (r, {| self := self w; fs := d |}).

Definition set_files (f : gmap string string -> gmap string string)
  : M world unit :=
  modify (fun w =>
    {| self := {| file_struct_manager := file_struct_manager (self w);
                  files := f (files (self w));
                  preffix := preffix (self w) |};
       fs := fs w |}).

Definition set_preffix (p : option string) : M world unit :=
  modify (fun w =>
    {| self := {| file_struct_manager := file_struct_manager (self w);
                  files := files (self w);
                  preffix := p |};
       fs := fs w |}).

Definition set_file_struct_manager (m : FileStructManager) : M world unit :=
  modify (fun w =>
    {| self := {| file_struct_manager := m;
                  files := files (self w);
                  preffix := preffix (self w) |};
       fs := fs w |}).

(** [__construct_result_file] *)
Definition construct_result_file (s : StateManager) : string :=
  let data_dir := weights_dir (file_struct_manager s) in
  path_join data_dir
    ((match preffix s with Some p => p ++ "_" | None => "" end)
       ++ "state.zip")%string.

(** The local helper [rm_file] of [pack] and [clear_files]. *)
Definition rm_file (file : string) : M disk unit :=
  let! d := get in
  if exists_ d file && isfile d file then os_remove file else ret tt.

(** The local helper [rename_file] of [pack]. *)
Definition rename_file (file : string) : M disk unit :=
  let target := (file ++ ".old")%string in
  rm_file target >>
  let! d := get in
  if exists_ d file && isfile d file then os_rename file target else ret tt.

Definition pack : M world unit :=
  let! w := get in
  let weights_file := weights_file (file_struct_manager (self w)) in
  let state_file := optimizer_state_file (file_struct_manager (self w)) in
  let result_file := construct_result_file (self w) in
  on_disk (rename_file result_file) >>
  on_disk (with_ZipFile_w result_file
             (ZipFile_write weights_file (basename weights_file) >>
              ZipFile_write state_file (basename state_file))) >>
  on_disk (rm_file weights_file) >>
  on_disk (rm_file state_file).

Definition unpack : M world unit :=
  let! w := get in
  set_files (insert "weights_file"
    (path_join (weights_dir (file_struct_manager (self w))) "weights.pth")) >>
  set_files (insert "state_file"
    (path_join (weights_dir (file_struct_manager (self w))) "state.pth")) >>
  let! w := get in
  let result_file := construct_result_file (self w) in
  on_disk (with_ZipFile_r result_file
             (extractall (weights_dir (file_struct_manager (self w))))).

(** [d[key]] on the [__files] dictionary. *)
Definition files_getitem (key : string) : M world string :=
  let! w := get in
  match files (self w) !! key with
  | Some v => ret v
  | None => raise (KeyError key)
  end.

Definition clear_files : M world unit :=
  let! weights := files_getitem "weights_file" in
  on_disk (rm_file weights) >>
  let! state := files_getitem "state_file" in
  on_disk (rm_file state) >>
  set_files (fun _ => ∅).

Definition get_files : M world (gmap string string) :=
  let! w := get in ret (files (self w)).

(** [__init__], run on the object being created. *)
Definition init (fsm : FileStructManager) (preffix_arg : option string)
  : M world unit :=
  set_file_struct_manager fsm >>
  set_files (fun _ => ∅) >>
  let! w := get in
  let weights_file := weights_file (file_struct_manager (self w)) in
  let state_file := optimizer_state_file (file_struct_manager (self w)) in
  (if exists_ (fs w) weights_file && exists_ (fs w) state_file
      && isfile (fs w) weights_file && isfile (fs w) state_file
   then set_preffix (Some "prev_start") >> pack >> set_preffix None
   else ret tt) >>
  set_preffix preffix_arg.

(** [StateManager(fsm, preffix)] on the disk [d]. *)
Definition StateManager_new (fsm : FileStructManager)
  (preffix_arg : option string) (d : disk) : outcome unit * world :=
  init fsm preffix_arg
    {| self := {| file_struct_manager := fsm; files := ∅; preffix := None |};
       fs := d |}.

End StateManager.

(** ** A concrete container

    A length-prefixed container format, enough to run the packer on concrete
    disks.  Numbers are written in unary: [n] times [x01], then [x00]. *)
Module Container.

Definition enc_nat (n : nat) : list byte := repeat x01 n ++ [x00].

Fixpoint dec_nat (l : list byte) : option (nat * list byte) :=
  match l with
  | x00 :: r => Some (O, r)
  | x01 :: r => match dec_nat r with
                | Some (n, r') => Some (S n, r')
                | None => None
                end
  | _ => None
  end.

Definition enc_blob (bs : list byte) : list byte :=
  enc_nat (length bs) ++ bs.

Definition dec_blob (l : list byte) : option (list byte * list byte) :=
  match dec_nat l with
  | Some (n, r) =>
      if (n <=? length r)%nat then Some (take n r, drop n r) else None
  | None => None
  end.

Definition enc_entry (e : zentry) : list byte :=
  match e with
  | ZFile name data =>
      x00 :: enc_blob (list_byte_of_string name) ++ enc_blob data
  | ZDir name => x01 :: enc_blob (list_byte_of_string name)
  end.

Definition dec_entry (l : list byte) : option (zentry * list byte) :=
  match l with
  | x00 :: r =>
      match dec_blob r with
      | Some (name, r1) =>
          match dec_blob r1 with
          | Some (data, r2) => Some (ZFile (string_of_list_byte name) data, r2)
          | None => None
          end
      | None => None
      end
  | x01 :: r =>
      match dec_blob r with
      | Some (name, r1) => Some (ZDir (string_of_list_byte name), r1)
      | None => None
      end
  | _ => None
  end.

Fixpoint dec_entries (k : nat) (l : list byte)
  : option (list zentry * list byte) :=
  match k with
  | O => Some ([], l)
  | S k' =>
      match dec_entry l with
      | Some (e, r) =>
          match dec_entries k' r with
          | Some (es, r') => Some (e :: es, r')
          | None => None
          end
      | None => None
      end
  end.

Definition encode (es : list zentry) : list byte :=
  x50 :: x4b :: enc_nat (length es) ++ concat (map enc_entry es).

Definition decode (l : list byte) : option (list zentry) :=
  match l with
  | x50 :: x4b :: r =>
      match dec_nat r with
      | Some (k, r1) =>
          match dec_entries k r1 with
          | Some (es, []) => Some es
          | _ => None
          end
      | None => None
      end
  | _ => None
  end.

End Container.

(** ** Configuration values and configurations

    A configuration is a dictionary from a transform key to the dictionary of
    its parameters.  A float is carried as the rational it denotes. *)

#[warnings="-register-all"]
Inductive pyval : Type :=
| PInt (z : Z)
| PFloat (q : Q)
| PStr (s : string)
| PList (l : list pyval)
| PNone.

Abbreviation fragment := (gmap string pyval).
Abbreviation config := (gmap string (gmap string pyval)).

Definition obind {A B} (o : outcome A) (k : A -> outcome B) : outcome B :=
  match o with
  | Ok a => k a
  | Raise e => Raise e
  end.

Notation "'let?' x ':=' c 'in' k" := (obind c (fun x => k))
  (at level 10, x pattern, c at level 100, k at level 200) : py_scope.

(** [d[key]] *)
Definition getitem {V} (d : gmap string V) (key : string) : outcome V :=
  match d !! key with
  | Some v => Ok v
  | None => Raise (KeyError key)
  end.

(** ** [Augmentation] and its subclasses: construction and [get_config] *)

Inductive resize_fnc : Type :=
| resize_to_defined
| resize_by_min_edge.

(** The private fields of each subclass, tagged by the registry key of the
    class. *)
Inductive fields : Type :=
| hflip
| vflip
| gauss_noise (mean var interval : pyval)
| snp_noise (s_vs_p amount : pyval)
| blur (ksize : pyval)
| resize (size : pyval) (fnc : resize_fnc)
| ccrop (size width height : pyval)
| rcrop (size width height : pyval)
| rrotate (interval : pyval)
| rbrightness (interval : pyval)
| rcontrast (interval : pyval)
| normalize
| to_pytorch.

Record Augmentation : Type := {
  aug_name : string;
  percentage : pyval;
  own : fields
}.

(** [_get_config_path] applied to the configuration and the key. *)
Definition get_config_path (cfg : config) (aug_name : string)
  : outcome fragment :=
  getitem cfg aug_name.

(** [Augmentation.__init__]: the name and the percentage read. *)
Definition Augmentation_init (cfg : config) (aug_name : string)
  : outcome (string * pyval) :=
  let? frag := get_config_path cfg aug_name in
  let? p := getitem frag "percentage" in
  Ok (aug_name, p).

Definition param (cfg : config) (aug_name key : string) : outcome pyval :=
  let? frag := get_config_path cfg aug_name in
  getitem frag key.

Definition is_list2 (v : pyval) : bool :=
  match v with
  | PList [_; _] => true
  | _ => false
  end.

(** [a, b = size if type(size) == list and len(size) == 2 else [size, size]] *)
Definition width_height (size : pyval) : pyval * pyval :=
  match size with
  | PList [a; b] => (a, b)
  | _ => (size, size)
  end.

Definition HorizontalFlip (cfg : config) : outcome Augmentation :=
  let? (n, p) := Augmentation_init cfg "hflip" in
  Ok {| aug_name := n; percentage := p; own := hflip |}.

Definition VerticalFlip (cfg : config) : outcome Augmentation :=
  let? (n, p) := Augmentation_init cfg "vflip" in
  Ok {| aug_name := n; percentage := p; own := vflip |}.

Definition GaussNoise (cfg : config) : outcome Augmentation :=
  let? (n, p) := Augmentation_init cfg "gauss_noise" in
  let? mean := param cfg n "mean" in
  let? var := param cfg n "var" in
  let? interval := param cfg n "interval" in
  Ok {| aug_name := n; percentage := p;
        own := gauss_noise mean var interval |}.

Definition SNPNoise (cfg : config) : outcome Augmentation :=
  let? (n, p) := Augmentation_init cfg "snp_noise" in
  let? s_vs_p := param cfg n "s_vs_p" in
  let? amount := param cfg n "amount" in
  Ok {| aug_name := n; percentage := p; own := snp_noise s_vs_p amount |}.

Definition Blur (cfg : config) : outcome Augmentation :=
  let? (n, p) := Augmentation_init cfg "blur" in
  let? ksize := param cfg n "ksize" in
  Ok {| aug_name := n; percentage := p; own := blur ksize |}.

Definition Resize (cfg : config) : outcome Augmentation :=
  let? (n, p) := Augmentation_init cfg "resize" in
  let? size := param cfg n "size" in
  let fnc := if is_list2 size then resize_to_defined else resize_by_min_edge in
  Ok {| aug_name := n; percentage := PInt 100; own := resize size fnc |}.

Definition CentralCrop (cfg : config) : outcome Augmentation :=
  let? (n, p) := Augmentation_init cfg "ccrop" in
  let? size := param cfg n "size" in
  let '(width, height) := width_height size in
  Ok {| aug_name := n; percentage := p; own := ccrop size width height |}.

Definition RandomCrop (cfg : config) : outcome Augmentation :=
  let? (n, p) := Augmentation_init cfg "rcrop" in
  let? size := param cfg n "size" in
  let '(width, height) := width_height size in
  Ok {| aug_name := n; percentage := p; own := rcrop size width height |}.

Definition RandomRotate (cfg : config) : outcome Augmentation :=
  let? (n, p) := Augmentation_init cfg "rrotate" in
  let? interval := param cfg n "interval" in
  Ok {| aug_name := n; percentage := p; own := rrotate interval |}.

Definition RandomBrightness (cfg : config) : outcome Augmentation :=
  let? (n, p) := Augmentation_init cfg "rbrightness" in
  let? interval := param cfg n "interval" in
  Ok {| aug_name := n; percentage := p; own := rbrightness interval |}.

Definition RandomContrast (cfg : config) : outcome Augmentation :=
  let? (n, p) := Augmentation_init cfg "rcontrast" in
  let? interval := param cfg n "interval" in
  Ok {| aug_name := n; percentage := p; own := rcontrast interval |}.

Definition Normalize (cfg : config) : outcome Augmentation :=
  let? (n, p) := Augmentation_init cfg "normalize" in
  Ok {| aug_name := n; percentage := PInt 100; own := normalize |}.

Definition ToPyTorch (cfg : config) : outcome Augmentation :=
  let? (n, p) := Augmentation_init cfg "to_pytorch" in
  Ok {| aug_name := n; percentage := PInt 100; own := to_pytorch |}.

(** The registry: key to constructor, in the order of the source. *)
Definition augmentations_dict
  : list (string * (config -> outcome Augmentation)) :=
  [ ("hflip", HorizontalFlip);
    ("vflip", VerticalFlip);
    ("gauss_noise", GaussNoise);
    ("snp_noise", SNPNoise);
    ("blur", Blur);
    ("resize", Resize);
    ("ccrop", CentralCrop);
    ("rcrop", RandomCrop);
    ("rrotate", RandomRotate);
    ("to_pytorch", ToPyTorch);
    ("normalize", Normalize);
    ("rbrightness", RandomBrightness);
    ("rcontrast", RandomContrast) ].

Definition get_percetage (self : Augmentation) : pyval := percentage self.

Definition get_name (self : Augmentation) : string := aug_name self.

(** [_get_config] of each subclass. *)
Definition get_config_own (self : Augmentation) : fragment :=
  match own self with
  | hflip | vflip | normalize | to_pytorch => ∅
  | gauss_noise mean var interval =>
      <["mean" := mean]> (<["var" := var]> (<["interval" := interval]> ∅))
  | snp_noise s_vs_p amount =>
      <["s_vs_p" := s_vs_p]> (<["amount" := amount]> ∅)
  | blur ksize => <["ksize" := ksize]> ∅
  | resize size _ | ccrop size _ _ | rcrop size _ _ => <["size" := size]> ∅
  | rrotate interval | rbrightness interval | rcontrast interval =>
      <["interval" := interval]> ∅
  end.

(** [dict.update]: the keys of [other] win. *)
Definition dict_update {V} (d other : gmap string V) : gmap string V :=
  other ∪ d.

Definition get_config (self : Augmentation) : config :=
  let internal_config := <["percentage" := get_percetage self]> ∅ in
  let internal_config := dict_update internal_config (get_config_own self) in
  <[get_name self := internal_config]> ∅.

(** ** Random sources

    [random] and [numpy.random] keep a generator each.  A generator is the
    tape of raw integers it will deliver; a draw below [n] reduces the next
    raw integer modulo [n], so that every residue is one outcome.  A tape
    that has run out delivers 0. *)

Local Open Scope Z_scope.

Record rng : Type := {
  py_random : list Z;
  np_random : list Z
}.

Definition draw (n : Z) (tape : list Z) : Z * list Z :=
  match tape with
  | [] => (0, [])
  | x :: t => (x mod n, t)
  end.

Fixpoint draws (n : Z) (k : nat) (tape : list Z) : list Z * list Z :=
  match k with
  | O => ([], tape)
  | S k' =>
      let '(x, t) := draw n tape in
      let '(xs, t') := draws n k' t in
      (x :: xs, t')
  end.

(** [random.randint(a, b)]: both ends included; an empty range raises. *)
Definition randint (a b : Z) : M rng Z :=
  fun g =>
    if b <? a then (Raise ValueError, g)
    else
      let '(k, t) := draw (b - a + 1) (py_random g) in
      (Ok (a + k), {| py_random := t; np_random := np_random g |}).

(** [numpy.random.randint(low, high, size)]: [high] is excluded.  For a
    [size] of 0 the empty array is returned before the range is looked at;
    otherwise an empty range or a negative [size] raises. *)
Definition np_random_randint (low high size : Z) : M rng (list Z) :=
  fun g =>
    if size =? 0 then (Ok [], g)
    else if (high <=? low) || (size <? 0) then (Raise ValueError, g)
    else
      let '(xs, t) := draws (high - low) (Z.to_nat size) (np_random g) in
      (Ok (map (Z.add low) xs), {| py_random := py_random g; np_random := t |}).

(** ** Images: arrays of height x width x channels *)

Record ndarray : Type := {
  shape : Z * Z * Z;
  px : list (list (list Z))
}.

Definition size (a : ndarray) : Z := let '(h, w, c) := shape a in h * w * c.

(** An index of a basic slice [a:b] on an axis of length [n]. *)
Definition slice_bound (n i : Z) : Z :=
  if i <? 0 then Z.max 0 (i + n) else Z.min i n.

Definition slice_len (n a b : Z) : Z :=
  Z.max 0 (slice_bound n b - slice_bound n a).

Definition slice {A} (a b : Z) (l : list A) : list A :=
  let n := Z.of_nat (length l) in
  take (Z.to_nat (slice_bound n b - slice_bound n a))
       (drop (Z.to_nat (slice_bound n a)) l).

(** [data[y1:y2, x1:x2, :]] *)
Definition getslice (data : ndarray) (y1 y2 x1 x2 : Z) : ndarray :=
  let '(h, w, c) := shape data in
  {| shape := (slice_len h y1 y2, slice_len w x1 x2, c);
     px := map (slice x1 x2) (slice y1 y2 (px data)) |}.

(** [data[i, j, k]] for indices within the array. *)
Definition getitem3 (data : ndarray) (i j k : nat) : option Z :=
  match px data !! i with
  | Some row => match row !! j with
                | Some p => p !! k
                | None => None
                end
  | None => None
  end.

(** An integer index on an axis of length [n]: negative indices count from
    the end, anything outside raises. *)
Definition axis_index (n i : Z) : outcome nat :=
  let i' := if i <? 0 then i + n else i in
  if (0 <=? i') && (i' <? n) then Ok (Z.to_nat i') else Raise IndexError.

(** The indices [idx] on an axis of length [n]; one index outside raises. *)
Fixpoint axis_indices (n : Z) (idx : list Z) : outcome (list nat) :=
  match idx with
  | [] => Ok []
  | i :: rest =>
      let? i' := axis_index n i in
      let? rest' := axis_indices n rest in
      Ok (i' :: rest')
  end.

(** A row with every element set to [v]. *)
Definition filled (v : Z) (row : list (list Z)) : list (list Z) :=
  map (map (fun _ => v)) row.

(** [out[coords] = v] for [coords] a list of three index arrays of one
    length.  A list used as an index is one index array (numpy 1.23 and
    later), here of three rows, and an array of integers indexes the first
    axis: every integer of the three arrays selects a row of [out], one
    outside the first axis raises, and every selected row is assigned
    whole. *)
Definition setitem_coords (out : ndarray) (rows cols chans : list Z) (v : Z)
  : outcome ndarray :=
  let '(h, _, _) := shape out in
  let? idx := axis_indices h (rows ++ cols ++ chans) in
  Ok {| shape := shape out;
        px := foldr (fun i l => alter (filled v) i l) (px out) idx |}.

(** ** [Augmentation.__call__] and two [process] methods *)

(** [r <= v] for an integer [r]. *)
Definition int_le (r : Z) (v : pyval) : outcome bool :=
  match v with
  | PInt z => Ok (r <=? z)
  | PFloat q => Ok (Qle_bool (inject_Z r) q)
  | _ => Raise TypeError
  end.

(** [__call__], over the [process] of the subclass. *)
Definition call {D} (process : Augmentation -> D -> M rng D)
  (self : Augmentation) (data : D) : M rng D :=
  let! r := randint 1 100 in
  let! apply := lift_outcome (int_le r (percentage self)) in
  if apply then process self data else ret data.

(** A value used as an integer; the sizes of a crop are indices, and
    anything else ends in an exception. *)
Definition as_int (v : pyval) : outcome Z :=
  match v with
  | PInt z => Ok z
  | _ => Raise TypeError
  end.

(** ** Numbers

    A Python number is an integer or a float.  A float is the rational it
    denotes, and the result of a float operation is the exact result rounded
    to the nearest binary64 number, ties to even; the range of the exponent
    is not limited (no infinity, no subnormal numbers). *)

Definition round_half_even (x : Q) : Z :=
  let f := Qfloor x in
  match (x - inject_Z f ?= 1 # 2)%Q with
  | Lt => f
  | Gt => f + 1
  | Eq => if Z.even f then f else f + 1
  end.

(** The exponent [e] with [2^e <= |q| < 2^(e+1)], for [q] other than 0. *)
Definition ilog2 (q : Q) : Z :=
  let e := Z.log2 (Z.abs (Qnum q)) - Z.log2 (Zpos (Qden q)) in
  if Qle_bool (2 ^ e) (Qabs q) then e else e - 1.

(** The nearest number with a significand of 53 bits. *)
Definition float_round (q : Q) : Q :=
  if Qeq_bool q 0 then 0%Q
  else
    let e := ilog2 q - 52 in
    (inject_Z (round_half_even (q / 2 ^ e)) * 2 ^ e)%Q.

Inductive number : Type :=
| NInt (z : Z)
| NFloat (q : Q).

Definition num_value (x : number) : Q :=
  match x with
  | NInt z => inject_Z z
  | NFloat q => q
  end.

(** [float(x)] *)
Definition to_float (x : number) : Q :=
  match x with
  | NInt z => float_round (inject_Z z)
  | NFloat q => q
  end.

(** [x * y]: exact on two integers, a float otherwise. *)
Definition num_mul (x y : number) : number :=
  match x, y with
  | NInt a, NInt b => NInt (a * b)
  | _, _ => NFloat (float_round (to_float x * to_float y))
  end.

(** [x - y] *)
Definition num_sub (x y : number) : number :=
  match x, y with
  | NInt a, NInt b => NInt (a - b)
  | _, _ => NFloat (float_round (to_float x - to_float y))
  end.

(** [int(np.ceil(x))] *)
Definition np_ceil (x : number) : Z := Qceiling (to_float x).

(** A value used as a number. *)
Definition as_num (v : pyval) : outcome number :=
  match v with
  | PInt z => Ok (NInt z)
  | PFloat q => Ok (NFloat q)
  | _ => Raise TypeError
  end.

(** [RandomCrop.process] *)
Definition RandomCrop_process (self : Augmentation) (data : ndarray)
  : M rng ndarray :=
  match own self with
  | rcrop _ width height =>
      let '(h, w, c) := shape data in
      let! width := lift_outcome (as_int width) in
      let! dx := (if width <? w then randint 0 (w - width) else ret 0) in
      let! height := lift_outcome (as_int height) in
      let! dy := (if height <? h then randint 0 (h - height) else ret 0) in
      let y1 := dy in let y2 := dy + height in
      let x1 := dx in let x2 := dx + width in
      ret (getslice data y1 y2 x1 x2)
  | _ => raise TypeError
  end.

(** The two passes of [SNPNoise.process] for given numbers of coordinates. *)
Definition snp_pass (out : ndarray) (num v : Z) : M rng ndarray :=
  let '(h, w, c) := shape out in
  let! rows := np_random_randint 0 (h - 1) num in
  let! cols := np_random_randint 0 (w - 1) num in
  let! chans := np_random_randint 0 (c - 1) num in
  lift_outcome (setitem_coords out rows cols chans v).

Definition snp_paint (data : ndarray) (num_salt num_pepper : Z)
  : M rng ndarray :=
  let out := data in
  let! out := snp_pass out num_salt 255 in
  snp_pass out num_pepper 0.

(** [SNPNoise.process] *)
Definition SNPNoise_process (self : Augmentation) (data : ndarray)
  : M rng ndarray :=
  match own self with
  | snp_noise s_vs_p amount =>
      let! amount := lift_outcome (as_num amount) in
      let! s_vs_p := lift_outcome (as_num s_vs_p) in
      let num_salt :=
        np_ceil (num_mul (num_mul amount (NInt (size data))) s_vs_p) in
      let num_pepper :=
        np_ceil (num_mul (num_mul amount (NInt (size data)))
                         (num_sub (NFloat 1) s_vs_p)) in
      snp_paint data num_salt num_pepper
  | _ => raise TypeError
  end.

(** ** Conditions and abbreviations used in the statements *)

(** The conditions on the disk under which [pack] can replace the archive:
    the archive path and its backup path are distinct from the two artifact
    paths, the archive path is not a directory, and no directory stands in
    the way of the backup when there is an archive to back up. *)
Definition archive_ready (s : StateManager) (d : disk) : bool :=
  let wf := weights_file (file_struct_manager s) in
  let sf := optimizer_state_file (file_struct_manager s) in
  let rf := construct_result_file s in
  let old := (rf ++ ".old")%string in
  negb (String.eqb rf wf) && negb (String.eqb rf sf)
  && negb (String.eqb old wf) && negb (String.eqb old sf)
  && negb (isdir d rf) && negb (isfile d rf && isdir d old).

(** The disk after [rename_file file]. *)
Definition rotate (file : string) (d : disk) : disk :=
  let old := (file ++ ".old")%string in
  let d1 := if isfile d old then delete old d else d in
  match d1 !! file with
  | Some (File bs) => <[old := File bs]> (delete file d1)
  | _ => d1
  end.

(** The artifact files lie directly in the weights directory: each path is
    the weights directory joined with the base name of the path. *)
Definition in_weights_dir (m : FileStructManager) : bool :=
  String.eqb (path_join (weights_dir m) (basename (weights_file m)))
             (weights_file m)
  && String.eqb (path_join (weights_dir m) (basename (optimizer_state_file m)))
                (optimizer_state_file m).

(** The member that [ZipFile.write] stores for a node. *)
Definition entry_of (arcname : string) (n : node) : zentry :=
  match n with
  | File bs => ZFile arcname bs
  | Dir => ZDir arcname
  end.

(** The classes that set their percentage to 100 when constructed. *)
Definition forces_percentage (key : string) : bool :=
  String.eqb key "resize" || String.eqb key "normalize"
  || String.eqb key "to_pytorch".

(** The parameters of each class besides the percentage. *)
Definition own_keys (key : string) : list string :=
  if String.eqb key "gauss_noise" then ["mean"; "var"; "interval"]
  else if String.eqb key "snp_noise" then ["s_vs_p"; "amount"]
  else if String.eqb key "blur" then ["ksize"]
  else if String.eqb key "resize" || String.eqb key "ccrop"
          || String.eqb key "rcrop" then ["size"]
  else if String.eqb key "rrotate" || String.eqb key "rbrightness"
          || String.eqb key "rcontrast" then ["interval"]
  else [].

(** ** Concrete inputs *)

Definition example_fsm : FileStructManager :=
  {| weights_dir := "w";
     weights_file := "w/weights.pth";
     optimizer_state_file := "w/state.pth" |}.

Definition example_manager : StateManager :=
  {| file_struct_manager := example_fsm; files := ∅; preffix := None |}.

(** Both artifacts and nothing else. *)
Definition disk_artifacts : disk :=
  <["w/weights.pth" := File [x01; x02]]> (<["w/state.pth" := File [x03]]> ∅).

(** The weights file alone: the optimizer state is missing. *)
Definition disk_weights_only : disk :=
  <["w/weights.pth" := File [x01; x02]]> ∅.


(** A Resize configured with percentage 50, and a GaussNoise. *)
Definition config_resize_50 : config :=
  <["resize" := <["percentage" := PInt 50]> (<["size" := PInt 64]> ∅)]> ∅.

Definition config_gauss : config :=
  <["gauss_noise" :=
      <["percentage" := PInt 30]>
        (<["mean" := PInt 0]>
           (<["var" := PInt 4]> (<["interval" := PInt 20]> ∅)))]> ∅.

(** A 2 x 2 image of two channels. *)
Definition image_2x2x2 : ndarray :=
  {| shape := (2, 2, 2);
     px := [[[10; 11]; [20; 21]]; [[30; 31]; [40; 41]]] |}.

Definition snp_quarter : Augmentation :=
  {| aug_name := "snp_noise"; percentage := PInt 100;
     own := snp_noise (PFloat (1 # 2)) (PFloat (1 # 4)) |}.

Definition tape_np : rng :=
  {| py_random := []; np_random := [5; 3; 7; 1; 0; 2] |}.

(** ** Further conditions and inputs for the packer *)

(** The bytes that [extractall] leaves at path [p]: those of the last file
    member extracted to [p], if there is one. *)
Fixpoint member_data (dir : string) (es : list zentry) (p : string)
  : option (list byte) :=
  match es with
  | [] => None
  | e :: rest =>
      match member_data dir rest p with
      | Some b => Some b
      | None =>
          match e with
          | ZFile name data =>
              if String.eqb (path_join dir name) p then Some data else None
          | ZDir _ => None
          end
      end
  end.

(** A member is a regular file that [extractall] can write on the disk [d]:
    no directory stands at its target. *)
Definition extractable (dir : string) (d : disk) (e : zentry) : bool :=
  match e with
  | ZFile name _ => negb (isdir d (path_join dir name))
  | ZDir _ => false
  end.

(** An archive of the weights alone, beside nothing else. *)
Definition disk_archive_weights_only : disk :=
  <["w/state.zip" := File (Container.encode [ZFile "weights.pth" [x01; x02]])]>
    ∅.

(** A complete archive, beside an unrelated file. *)
Definition disk_archive_complete : disk :=
  <["w/state.zip" :=
      File (Container.encode [ZFile "weights.pth" [x01; x02];
                              ZFile "state.pth" [x03]])]>
    (<["w/notes.txt" := File [x09]]> ∅).

(** Both artifacts and a backup, but no archive. *)
Definition disk_stale_backup : disk :=
  <["w/state.zip.old" := File [x07]]> disk_artifacts.

(** A member that [clear_files] will find: a file named weights.pth or
    state.pth. *)
Definition tracked_member (e : zentry) : bool :=
  match e with
  | ZFile name _ => String.eqb name "weights.pth" || String.eqb name "state.pth"
  | ZDir _ => false
  end.

(** The disk after [rm_file file]. *)
Definition removed (file : string) (d : disk) : disk :=
  if isfile d file then delete file d else d.

(** The object and the disk after [unpack] of the complete archive. *)
Definition world_unpacked : world :=
  {| self := {| file_struct_manager := example_fsm;
                files := <["state_file" := "w/state.pth"]>
                           (<["weights_file" := "w/weights.pth"]> ∅);
                preffix := None |};
     fs := <["w/state.pth" := File [x03]]>
             (<["w/weights.pth" := File [x01; x02]]> disk_archive_complete) |}.

(** ** Further conditions and inputs for the augmentations *)

(** The first of [keys] that the fragment lacks. *)
Definition first_missing (frag : fragment) (keys : list string)
  : option string :=
  List.find (fun k => match frag !! k with Some _ => false | None => true end)
            keys.

(** A value that compares with an integer. *)
Definition numeric (v : pyval) : bool :=
  match v with
  | PInt _ | PFloat _ => true
  | _ => false
  end.

(** Whether a call at percentage [p] runs [process] when the generator
    delivers the raw integer [x]: the call is made on a [process] that
    returns [true], with the input [false]. *)
Definition call_applies (p x : Z) : bool :=
  match call (fun (_ : Augmentation) (_ : bool) => ret true)
             {| aug_name := "hflip"; percentage := PInt p; own := hflip |}
             false {| py_random := [x]; np_random := [] |} with
  | (Ok b, _) => b
  | (Raise _, _) => false
  end.

(** A blur without its kernel size, a resize with a percentage of 0, and a
    flip whose percentage is a string. *)
Definition config_blur_no_ksize : config :=
  <["blur" := <["percentage" := PInt 50]> ∅]> ∅.

Definition config_resize_0 : config :=
  <["resize" := <["percentage" := PInt 0]>
                  (<["size" := PList [PInt 64; PInt 32]]> ∅)]> ∅.

Definition config_hflip_text : config :=
  <["hflip" := <["percentage" := PStr "often"]> ∅]> ∅.

(** ** [CentralCrop.process] *)

(** The window is centred: the offsets are half the margins, rounded down
    as [//] does. *)
Definition CentralCrop_process (self : Augmentation) (data : ndarray)
  : M rng ndarray :=
  match own self with
  | ccrop _ width height =>
      let '(h, w, c) := shape data in
      let! width := lift_outcome (as_int width) in
      let! height := lift_outcome (as_int height) in
      let dx := (w - width) / 2 in
      let dy := (h - height) / 2 in
      let y1 := dy in let y2 := dy + height in
      let x1 := dx in let x2 := dx + width in
      ret (getslice data y1 y2 x1 x2)
  | _ => raise TypeError
  end.

(** The nested lists of an array have the lengths its shape says, and no
    length is negative (also when there is no row to show it). *)
Definition well_shaped (a : ndarray) : Prop :=
  0 <= snd (fst (shape a)) /\ 0 <= snd (shape a)
  /\ Z.of_nat (length (px a)) = fst (fst (shape a))
  /\ Forall (fun row =>
               Z.of_nat (length row) = snd (fst (shape a))
               /\ Forall (fun p => Z.of_nat (length p) = snd (shape a)) row)
            (px a).

(** A 3 x 4 image of one channel. *)
Definition image_3x4x1 : ndarray :=
  {| shape := (3, 4, 1);
     px := [[[1]; [2]; [3]; [4]]; [[5]; [6]; [7]; [8]];
            [[9]; [10]; [11]; [12]]] |}.

(** Every row of [a] is the row of [b] at its index, or that row with every
    element set to [v]. *)
Definition rows_painted (v : Z) (a b : ndarray) : Prop :=
  forall i : nat,
    px a !! i = px b !! i \/ px a !! i = filled v <$> px b !! i.

(** A 2 x 3 image of one channel. *)
Definition image_2x3x1 : ndarray :=
  {| shape := (2, 3, 1); px := [[[1]; [2]; [3]]; [[4]; [5]; [6]]] |}.

(** ** [RandomBrightness.process] *)

(** [np.where((255 - data) < brightness, 255, data + brightness)] on an
    image of dtype uint8, as [cv2] reads them, element by element.  The
    brightness is a Python integer: [data + brightness] keeps the dtype of
    the image, so it raises when the integer is not one of 0..255, and the
    sum wraps around modulo 256. *)
Definition np_where_brighter (brightness : Z) (data : ndarray)
  : outcome ndarray :=
  if (brightness <? 0) || (255 <? brightness) then Raise OverflowError
  else
    Ok {| shape := shape data;
          px := map (map (map (fun d => if 255 - d <? brightness then 255
                                        else (d + brightness) mod 256)))
                    (px data) |}.

(** [process] for an [interval] of two integers, [lo] at index 0 and [hi]
    at index 1. *)
Definition RandomBrightness_process (lo hi : Z) (data : ndarray)
  : M rng ndarray :=
  let! brightness := randint lo hi in
  lift_outcome (np_where_brighter brightness data).

(** ** [resize_by_min_edge] *)

(** The outcome of integer arithmetic that may divide by zero. *)
Inductive arith (A : Type) : Type :=
| ZeroDivisionError
| Value (a : A).

Arguments ZeroDivisionError {A}.
Arguments Value {A} a.

(** [a // b] on integers. *)
Definition floordiv (a b : Z) : arith Z :=
  if b =? 0 then ZeroDivisionError else Value (a / b).

(** [np.argmin] of a pair: the first index of the smaller element. *)
Definition argmin2 (a b : Z) : Z := if b <? a then 1 else 0.

(** [data.shape[idx]] for [idx] 0 or 1. *)
Definition shape_at (data : ndarray) (idx : Z) : Z :=
  let '(h, w, _) := shape data in if idx =? 0 then h else w.

Module Resizing.
Section WithCv2.

(** [cv2.resize(data, dsize)], with [dsize] the width and the height asked
    for; what it returns is left open. *)
Context {R : Type} (cv2_resize : ndarray -> Z * Z -> R).

(** For an integer [size]. *)
Definition resize_by_min_edge (data : ndarray) (size : Z) : arith R :=
  let '(h, w, _) := shape data in
  let min_size_idx := argmin2 h w in
  let max_size_idx := 1 - min_size_idx in
  match floordiv (size * shape_at data max_size_idx)
                 (shape_at data min_size_idx) with
  | ZeroDivisionError => ZeroDivisionError
  | Value max_size =>
      let target_size :=
        if min_size_idx =? 1 then (size, max_size) else (max_size, size) in
      Value (cv2_resize data target_size)
  end.

End WithCv2.
End Resizing.

(** A member name on which the cleaning of member names by [zipfile] is the
    identity: a base name other than the empty name, [.] and [..]. *)
Definition plain_name (name : string) : bool :=
  negb (has_sep name) && negb (String.eqb name "")
  && negb (String.eqb name ".") && negb (String.eqb name "..").

(** A member that [extractall] writes where [extract_member] says: a regular
    file of plain name, aimed neither at a directory nor at the archive that
    is being read. *)
Definition plain_member (dir archive : string) (d : disk) (e : zentry)
  : bool :=
  extractable dir d e
  && match e with
     | ZFile name _ =>
         plain_name name && negb (String.eqb (path_join dir name) archive)
     | ZDir _ => false
     end.

(** * The primitives on small inputs *)

Example path_join_plain : path_join "w" "state.zip" = "w/state.zip".
Proof. reflexivity. Qed.

Example path_join_trailing_sep : path_join "w/" "state.zip" = "w/state.zip".
Proof. reflexivity. Qed.

Example path_join_empty_dir : path_join "" "state.zip" = "state.zip".
Proof. reflexivity. Qed.

Example path_join_absolute : path_join "w" "/tmp/state.zip" = "/tmp/state.zip".
Proof. reflexivity. Qed.

Example basename_nested : basename "data/w/weights.pth" = "weights.pth".
Proof. reflexivity. Qed.

Example basename_no_sep : basename "weights.pth" = "weights.pth".
Proof. reflexivity. Qed.

Example construct_result_file_prefixed :
  construct_result_file
    {| file_struct_manager := example_fsm; files := ∅;
       preffix := Some "prev_start" |} = "w/prev_start_state.zip".
Proof. reflexivity. Qed.

Example construct_result_file_plain :
  construct_result_file example_manager = "w/state.zip".
Proof. reflexivity. Qed.

Example slice_inside : slice 1 3 [10; 11; 12; 13] = [11; 12].
Proof. reflexivity. Qed.

Example slice_past_the_end : slice 0 9 [10; 11; 12; 13] = [10; 11; 12; 13].
Proof. reflexivity. Qed.

Example slice_negative_stop : slice 1 (-1) [10; 11; 12; 13] = [11; 12].
Proof. reflexivity. Qed.

Example randint_first_draw :
  randint 1 100 {| py_random := [149; 7]; np_random := [] |} =
    (Ok 50, {| py_random := [7]; np_random := [] |}).
Proof. reflexivity. Qed.

Example randint_empty_range :
  fst (randint 3 2 {| py_random := [1]; np_random := [] |}) = Raise ValueError.
Proof. reflexivity. Qed.

Example np_random_randint_excludes_high :
  fst (np_random_randint 0 2 4 {| py_random := []; np_random := [0; 1; 2; 3] |})
  = Ok [0; 1; 0; 1].
Proof. reflexivity. Qed.

(** A 3 x 4 image of one channel cropped to 2 x 2 at the offsets drawn:
    [dx = 7 mod 3 = 1] and [dy = 4 mod 2 = 0]. *)
Example RandomCrop_process_run :
  RandomCrop_process
    {| aug_name := "rcrop"; percentage := PInt 50;
       own := rcrop (PInt 2) (PInt 2) (PInt 2) |}
    {| shape := (3, 4, 1);
       px := [[[1]; [2]; [3]; [4]]; [[5]; [6]; [7]; [8]];
              [[9]; [10]; [11]; [12]]] |}
    {| py_random := [7; 4]; np_random := [] |} =
  (Ok {| shape := (2, 2, 1); px := [[[2]; [3]]; [[6]; [7]]] |},
   {| py_random := []; np_random := [] |}).
Proof. reflexivity. Qed.

(** No integer is drawn for a count of 0, even from an empty range. *)
Example np_random_randint_count_0 :
  np_random_randint 0 0 0 {| py_random := []; np_random := [4] |} =
  (Ok [], {| py_random := []; np_random := [4] |}).
Proof. reflexivity. Qed.

(** The float nearest to one tenth, and a product that is rounded. *)
Example float_round_tenth :
  Qred (float_round (1 # 10)) = (3602879701896397 # 36028797018963968)%Q.
Proof. vm_compute. reflexivity. Qed.

Example num_mul_rounds :
  np_ceil (num_mul (num_mul (NFloat (float_round (1 # 10))) (NInt 20))
                   (NFloat 1)) = 2.
Proof. vm_compute. reflexivity. Qed.

(** One salt and one pepper coordinate on the 2 x 2 x 2 image: the only
    integer below the last index is 0 on every axis, and the whole of row 0
    is assigned, 255 at first and 0 in the end. *)
Example SNPNoise_process_run :
  SNPNoise_process snp_quarter image_2x2x2 tape_np =
  (Ok {| shape := (2, 2, 2);
         px := [[[0; 0]; [0; 0]]; [[30; 31]; [40; 41]]] |},
   {| py_random := []; np_random := [] |}).
Proof. vm_compute. reflexivity. Qed.

(** * Properties of the checkpoint packer *)

Section StateManagerProperties.
Context `{ZipFormat}.

Lemma string_length_append (a b : string) :
  String.length (a ++ b) = (String.length a + String.length b)%nat.
Proof. induction a as [|c a IH]; simpl; [reflexivity | now rewrite IH]. Qed.

Lemma old_neq (file : string) : (file ++ ".old")%string <> file.
Proof.
  intros E. apply (f_equal String.length) in E.
  rewrite string_length_append in E. simpl in E. lia.
Qed.

Lemma rm_file_spec (file : string) (d : disk) :
  rm_file file d = (Ok tt, if isfile d file then delete file d else d).
Proof.
  unfold rm_file, bind, get, exists_, isfile, os_remove, ret.
  destruct (d !! file) as [[bs|]|] eqn:E; simpl; rewrite ?E; reflexivity.
Qed.

Lemma rename_file_spec (file : string) (d : disk) :
  isfile d file && isdir d (file ++ ".old") = false ->
  rename_file file d = (Ok tt, rotate file d).
Proof.
  intros Hok. unfold rename_file, rotate, bind at 1.
  rewrite rm_file_spec. unfold bind, get.
  set (old := (file ++ ".old")%string) in *.
  set (d1 := if isfile d old then delete old d else d).
  assert (Hfile : d1 !! file = d !! file).
  { unfold d1. destruct (isfile d old); [|reflexivity].
    apply lookup_delete_ne. apply old_neq. }
  assert (Hold : isfile d file = true -> d1 !! old <> Some Dir).
  { intros Hf. rewrite Hf in Hok. simpl in Hok. unfold d1, isfile, isdir in *.
    destruct (d !! old) as [[?|]|] eqn:E; rewrite ?lookup_delete_eq, ?E;
      congruence. }
  clearbody d1. unfold exists_, isfile in *. rewrite Hfile.
  destruct (d !! file) as [[bs|]|] eqn:E; simpl; try reflexivity.
  unfold os_rename. rewrite Hfile.
  specialize (Hold eq_refl).
  destruct (d1 !! old) as [[?|]|]; try reflexivity. congruence.
Qed.

Lemma rotate_lookup_file (file : string) (d : disk) :
  d !! file <> Some Dir -> rotate file d !! file = None.
Proof.
  intros Hd. unfold rotate. set (old := (file ++ ".old")%string).
  set (d1 := if isfile d old then delete old d else d).
  assert (Hfile : d1 !! file = d !! file).
  { unfold d1. destruct (isfile d old); [|reflexivity].
    apply lookup_delete_ne, old_neq. }
  destruct (d1 !! file) as [[bs|]|] eqn:E; try congruence.
  rewrite lookup_insert_ne by apply old_neq. apply lookup_delete_eq.
Qed.

Lemma rotate_lookup_old (file : string) (d : disk) (prev : list byte) :
  d !! file = Some (File prev) ->
  rotate file d !! (file ++ ".old")%string = Some (File prev).
Proof.
  intros Hd. unfold rotate. set (old := (file ++ ".old")%string).
  set (d1 := if isfile d old then delete old d else d).
  assert (Hfile : d1 !! file = d !! file).
  { unfold d1. destruct (isfile d old); [|reflexivity].
    apply lookup_delete_ne, old_neq. }
  rewrite Hfile, Hd. apply lookup_insert_eq.
Qed.

Lemma rotate_lookup_other (file p : string) (d : disk) :
  p <> file -> p <> (file ++ ".old")%string -> rotate file d !! p = d !! p.
Proof.
  intros Hf Ho. unfold rotate. set (old := (file ++ ".old")%string) in *.
  set (d1 := if isfile d old then delete old d else d).
  assert (Hp : d1 !! p = d !! p).
  { unfold d1. destruct (isfile d old); [|reflexivity].
    now apply lookup_delete_ne. }
  destruct (d1 !! file) as [[bs|]|]; try exact Hp.
  rewrite lookup_insert_ne by congruence.
  rewrite lookup_delete_ne by congruence. exact Hp.
Qed.

Lemma archive_ready_spec (s : StateManager) (d : disk) :
  archive_ready s d = true ->
  let wf := weights_file (file_struct_manager s) in
  let sf := optimizer_state_file (file_struct_manager s) in
  let rf := construct_result_file s in
  let old := (rf ++ ".old")%string in
  rf <> wf /\ rf <> sf /\ old <> wf /\ old <> sf /\
  d !! rf <> Some Dir /\ isfile d rf && isdir d old = false.
Proof.
  unfold archive_ready. cbv zeta. intros Hr.
  repeat (apply andb_prop in Hr; destruct Hr as [Hr ?]).
  repeat match goal with
         | Hn : negb _ = true |- _ => apply negb_true_iff in Hn
         end.
  repeat match goal with
         | Hn : String.eqb _ _ = false |- _ => apply String.eqb_neq in Hn
         end.
  repeat split; try assumption.
  unfold isdir in *. destruct (d !! construct_result_file s) as [[?|]|];
    congruence.
Qed.

(** What [pack] does, in every case, on a disk where the archive can be
    replaced. *)
Lemma pack_run (s : StateManager) (d : disk) :
  archive_ready s d = true ->
  let wf := weights_file (file_struct_manager s) in
  let sf := optimizer_state_file (file_struct_manager s) in
  let rf := construct_result_file s in
  let d2 := rotate rf d in
  pack {| self := s; fs := d |} =
    match d !! wf with
    | None =>
        (Raise (FileNotFoundError wf),
         {| self := s; fs := <[rf := File (zip_encode [])]> d2 |})
    | Some nw =>
        match d !! sf with
        | None =>
            (Raise (FileNotFoundError sf),
             {| self := s;
                fs := <[rf := File (zip_encode [entry_of (basename wf) nw])]>
                        d2 |})
        | Some ns =>
            let d3 :=
              <[rf := File (zip_encode [entry_of (basename wf) nw;
                                        entry_of (basename sf) ns])]> d2 in
            let d4 := if isfile d3 wf then delete wf d3 else d3 in
            (Ok tt,
             {| self := s; fs := if isfile d4 sf then delete sf d4 else d4 |})
        end
    end.
Proof.
  intros Hr. apply archive_ready_spec in Hr. cbv zeta in Hr.
  destruct Hr as (Hwf & Hsf & Howf & Hosf & Hdir & Hrot). cbv zeta.
  set (wf := weights_file (file_struct_manager s)) in *.
  set (sf := optimizer_state_file (file_struct_manager s)) in *.
  set (rf := construct_result_file s) in *.
  unfold pack, bind at 1, get. simpl self.
  fold wf sf rf. unfold bind at 1, on_disk at 1. simpl fs.
  rewrite rename_file_spec by exact Hrot.
  unfold bind at 1, on_disk at 1. simpl fs.
  unfold with_ZipFile_w. rewrite rotate_lookup_file by exact Hdir.
  assert (Hlw : (<[rf := File []]> (rotate rf d) : disk) !! wf = d !! wf).
  { rewrite lookup_insert_ne by exact Hwf.
    apply rotate_lookup_other; congruence. }
  assert (Hls : (<[rf := File []]> (rotate rf d) : disk) !! sf = d !! sf).
  { rewrite lookup_insert_ne by exact Hsf.
    apply rotate_lookup_other; congruence. }
  unfold bind at 1, ZipFile_write at 1. rewrite Hlw.
  destruct (d !! wf) as [nw|] eqn:Ew.
  - destruct nw as [bw|]; simpl; rewrite Hls;
      destruct (d !! sf) as [[bs|]|] eqn:Es; simpl;
      rewrite insert_insert_eq; try reflexivity;
      unfold bind, on_disk; simpl; rewrite !rm_file_spec; reflexivity.
  - simpl. rewrite insert_insert_eq. reflexivity.
Qed.

Lemma unpack_run (s : StateManager) (d : disk) :
  let dir := weights_dir (file_struct_manager s) in
  let s' := {| file_struct_manager := file_struct_manager s;
               files := <["state_file" := path_join dir "state.pth"]>
                          (<["weights_file" := path_join dir "weights.pth"]>
                             (files s));
               preffix := preffix s |} in
  unpack {| self := s; fs := d |} =
    (fst (with_ZipFile_r (construct_result_file s) (extractall dir) d),
     {| self := s';
        fs := snd (with_ZipFile_r (construct_result_file s)
                     (extractall dir) d) |}).
Proof.
  cbv zeta. unfold unpack, bind, get, set_files, modify, on_disk. simpl.
  unfold construct_result_file. simpl.
  destruct (with_ZipFile_r _ _ d) as [r d']. reflexivity.
Qed.

(** [pack] on two regular files. *)
Lemma pack_ok (s : StateManager) (d : disk) (bw bs : list byte) :
  let wf := weights_file (file_struct_manager s) in
  let sf := optimizer_state_file (file_struct_manager s) in
  let rf := construct_result_file s in
  archive_ready s d = true ->
  d !! wf = Some (File bw) ->
  d !! sf = Some (File bs) ->
  pack {| self := s; fs := d |} =
    (Ok tt,
     {| self := s;
        fs := delete sf (delete wf
                (<[rf := File (zip_encode [ZFile (basename wf) bw;
                                           ZFile (basename sf) bs])]>
                   (rotate rf d))) |}).
Proof.
  cbv zeta. intros Hr Hw Hs. pose proof (pack_run s d Hr) as Hrun.
  apply archive_ready_spec in Hr. cbv zeta in Hr, Hrun.
  destruct Hr as (Hwf & Hsf & Howf & Hosf & Hdir & Hrot).
  set (wf := weights_file (file_struct_manager s)) in *.
  set (sf := optimizer_state_file (file_struct_manager s)) in *.
  set (rf := construct_result_file s) in *.
  rewrite Hw, Hs in Hrun. simpl entry_of in Hrun.
  set (d3 := <[rf := _]> (rotate rf d)) in *.
  assert (H3w : d3 !! wf = Some (File bw)).
  { unfold d3. rewrite lookup_insert_ne by congruence.
    rewrite rotate_lookup_other by congruence. exact Hw. }
  assert (H3s : d3 !! sf = Some (File bs)).
  { unfold d3. rewrite lookup_insert_ne by congruence.
    rewrite rotate_lookup_other by congruence. exact Hs. }
  rewrite Hrun. f_equal. f_equal.
  unfold isfile at 2 3 4. rewrite H3w. unfold isfile.
  destruct (delete wf d3 !! sf) as [[?|]|] eqn:E; try reflexivity.
  - destruct (decide (wf = sf)) as [Heq|Hne].
    + rewrite Heq, lookup_delete_eq in E. discriminate.
    + rewrite lookup_delete_ne in E by exact Hne. congruence.
  - symmetry. apply delete_id. exact E.
Qed.




(** C6.  When both artifacts are regular files and the archive path of the
    prefix "prev_start" can be replaced, the constructor packs them: the file
    prev_start_state.zip of the weights directory holds both artifacts, the
    artifacts are gone, and the object is left with the prefix of the
    caller and nothing tracked. *)
Theorem init_packs_prev_start (fsm : FileStructManager) (p : option string)
  (d : disk) (bw bs : list byte) :
  let wf := weights_file fsm in
  let sf := optimizer_state_file fsm in
  archive_ready {| file_struct_manager := fsm; files := ∅;
                   preffix := Some "prev_start" |} d = true ->
  d !! wf = Some (File bw) ->
  d !! sf = Some (File bs) ->
  exists d',
    StateManager_new fsm p d =
      (Ok tt, {| self := {| file_struct_manager := fsm; files := ∅;
                            preffix := p |};
                 fs := d' |})
    /\ d' !! path_join (weights_dir fsm) "prev_start_state.zip" =
         Some (File (zip_encode [ZFile (basename wf) bw;
                                 ZFile (basename sf) bs]))
    /\ d' !! wf = None /\ d' !! sf = None.
Proof.
  cbv zeta. intros Hr Hw Hs.
  pose proof (pack_ok _ d bw bs Hr Hw Hs) as Hrun.
  apply archive_ready_spec in Hr. cbv zeta in Hr.
  destruct Hr as (Hwf & Hsf & Howf & Hosf & Hdir & Hrot).
  simpl in Hrun, Hwf, Hsf, Howf, Hosf.
  unfold StateManager_new, init, bind, set_file_struct_manager, set_files,
    set_preffix, modify, get; simpl.
  unfold exists_, isfile. rewrite Hw, Hs. simpl.
  rewrite Hrun. simpl. eexists. split; [reflexivity|].
  change (construct_result_file _)
    with (path_join (weights_dir fsm) "prev_start_state.zip") in *.
  repeat split.
  - rewrite lookup_delete_ne by congruence.
    rewrite lookup_delete_ne by congruence. apply lookup_insert_eq.
  - destruct (decide (optimizer_state_file fsm = weights_file fsm)) as [E|E].
    + rewrite E. apply lookup_delete_eq.
    + rewrite lookup_delete_ne by congruence. apply lookup_delete_eq.
  - apply lookup_delete_eq.
Qed.

(** C3.  When the artifact paths lie directly in the weights directory, both
    artifacts are regular files and the archive path can be replaced, [pack]
    followed by [unpack] under the same prefix succeeds and leaves both
    artifacts, byte for byte, at their original paths. *)
Theorem pack_unpack_roundtrip (s : StateManager) (d : disk)
  (bw bs : list byte) :
  let wf := weights_file (file_struct_manager s) in
  let sf := optimizer_state_file (file_struct_manager s) in
  in_weights_dir (file_struct_manager s) = true ->
  archive_ready s d = true ->
  d !! wf = Some (File bw) ->
  d !! sf = Some (File bs) ->
  exists w1 w2,
    pack {| self := s; fs := d |} = (Ok tt, w1)
    /\ unpack w1 = (Ok tt, w2)
    /\ preffix (self w1) = preffix s /\ preffix (self w2) = preffix s
    /\ fs w1 !! wf = None /\ fs w1 !! sf = None
    /\ fs w2 !! wf = Some (File bw)
    /\ fs w2 !! sf = Some (File bs).
Proof.
  cbv zeta. intros Hlay Hr Hw Hs.
  pose proof (pack_ok s d bw bs Hr Hw Hs) as Hrun.
  apply archive_ready_spec in Hr. cbv zeta in Hr, Hrun.
  destruct Hr as (Hwf & Hsf & Howf & Hosf & Hdir & Hrot).
  unfold in_weights_dir in Hlay.
  apply andb_prop in Hlay. destruct Hlay as [Hjw Hjs].
  apply String.eqb_eq in Hjw, Hjs.
  set (wf := weights_file (file_struct_manager s)) in *.
  set (sf := optimizer_state_file (file_struct_manager s)) in *.
  set (rf := construct_result_file s) in *.
  set (es := [ZFile (basename wf) bw; ZFile (basename sf) bs]) in *.
  set (d1 := delete sf (delete wf (<[rf := File (zip_encode es)]>
                                      (rotate rf d)))) in *.
  assert (H1rf : d1 !! rf = Some (File (zip_encode es))).
  { unfold d1. rewrite lookup_delete_ne by congruence.
    rewrite lookup_delete_ne by congruence. apply lookup_insert_eq. }
  assert (H1sf : d1 !! sf = None) by apply lookup_delete_eq.
  assert (H1wf : d1 !! wf = None).
  { unfold d1. destruct (decide (sf = wf)) as [E|E].
    - rewrite E. apply lookup_delete_eq.
    - rewrite lookup_delete_ne by congruence. apply lookup_delete_eq. }
  assert (Hext : extractall (weights_dir (file_struct_manager s)) es d1
                 = (Ok tt, <[sf := File bs]> (<[wf := File bw]> d1))).
  { unfold es, extractall, bind, extract_member, ret. fold wf sf.
    rewrite Hjw, Hjs, H1wf.
    assert (Hnodir : (<[wf := File bw]> d1 : disk) !! sf <> Some Dir).
    { destruct (decide (wf = sf)) as [E|E].
      - rewrite E, lookup_insert_eq. discriminate.
      - rewrite lookup_insert_ne by exact E. rewrite H1sf. discriminate. }
    destruct ((<[wf := File bw]> d1 : disk) !! sf) as [[?|]|];
      try reflexivity. congruence. }
  exists {| self := s; fs := d1 |}.
  exists {| self :=
              {| file_struct_manager := file_struct_manager s;
                 files :=
                   <["state_file" :=
                       path_join (weights_dir (file_struct_manager s))
                         "state.pth"]>
                     (<["weights_file" :=
                          path_join (weights_dir (file_struct_manager s))
                            "weights.pth"]> (files s));
                 preffix := preffix s |};
            fs := <[sf := File bs]> (<[wf := File bw]> d1) |}.
  split; [exact Hrun|]. split.
  { rewrite unpack_run. cbv zeta. fold rf. unfold with_ZipFile_r.
    rewrite H1rf, zip_decode_encode, Hext. reflexivity. }
  simpl. repeat split; auto.
  - destruct (decide (sf = wf)) as [Heq|Hne].
    + rewrite Heq, lookup_insert_eq. rewrite Heq in Hs. congruence.
    + rewrite lookup_insert_ne by exact Hne. apply lookup_insert_eq.
  - apply lookup_insert_eq.
Qed.

(** C2 (what the code does).  On an object that tracks no file, as the
    constructor and [clear_files] leave it, [clear_files] raises [KeyError]
    for the key weights_file and changes nothing. *)
Theorem clear_files_untracked_raises (fsm : FileStructManager)
  (p : option string) (d : disk) :
  clear_files {| self := {| file_struct_manager := fsm; files := ∅;
                            preffix := p |};
                 fs := d |} =
    (Raise (KeyError "weights_file"),
     {| self := {| file_struct_manager := fsm; files := ∅; preffix := p |};
        fs := d |}).
Proof.
  unfold clear_files, bind, files_getitem, get. simpl. reflexivity.
Qed.

(** [pack] works on the disk only. *)
Lemma pack_self (w : world) : self (snd (pack w)) = self w.
Proof.
  unfold pack, bind, get. simpl.
  repeat match goal with
         | |- context [on_disk ?c ?x] =>
             unfold on_disk at 1; destruct (c (fs x)) as [[[]|?] ?]; simpl
         end; reflexivity.
Qed.

(** The constructor leaves no file tracked, whatever it did on the disk. *)
Lemma StateManager_new_files (fsm : FileStructManager) (p : option string)
  (d : disk) :
  files (self (snd (StateManager_new fsm p d))) = ∅.
Proof.
  unfold StateManager_new, init, bind, set_file_struct_manager, set_files,
    set_preffix, modify, get; simpl.
  destruct (_ && _); simpl; [|reflexivity].
  match goal with
  | |- context [pack ?w] =>
      pose proof (pack_self w) as Hp; destruct (pack w) as [[[]|e] w']
  end; simpl in *; now rewrite Hp.
Qed.

(** A [clear_files] that returns leaves no file tracked. *)
Lemma clear_files_resets (w w' : world) :
  clear_files w = (Ok tt, w') -> files (self w') = ∅.
Proof.
  unfold clear_files, bind, files_getitem, get, on_disk, set_files, modify,
    ret, raise.
  repeat match goal with
         | |- context [match ?c with _ => _ end] =>
             destruct c; simpl; try discriminate
         end.
  intros E. inversion E. reflexivity.
Qed.

(** C9.  Whatever [unpack] returns or raises, the object then tracks the two
    expected paths of the weights directory, and [get_files] returns them. *)
Theorem unpack_records_paths (w w' : world) (r : outcome unit) :
  let dir := weights_dir (file_struct_manager (self w)) in
  unpack w = (r, w') ->
  get_files w' =
    (Ok (<["state_file" := path_join dir "state.pth"]>
           (<["weights_file" := path_join dir "weights.pth"]>
              (files (self w)))), w')
  /\ files (self w') !! "weights_file" = Some (path_join dir "weights.pth")
  /\ files (self w') !! "state_file" = Some (path_join dir "state.pth").
Proof.
  cbv zeta. destruct w as [s d]. rewrite unpack_run. cbv zeta.
  intros E. inversion E; subst. unfold get_files, bind, get, ret. simpl.
  repeat split.
  - rewrite lookup_insert_ne by discriminate. apply lookup_insert_eq.
  - apply lookup_insert_eq.
Qed.

End StateManagerProperties.

(** ** The concrete container reads back what it wrote *)

Module ContainerFormat.
Import Container.

Lemma dec_enc_nat n rest : dec_nat (enc_nat n ++ rest) = Some (n, rest).
Proof.
  unfold enc_nat. induction n as [|n IH]; simpl; [reflexivity|].
  simpl in IH. rewrite IH. reflexivity.
Qed.

Lemma dec_enc_blob bs rest : dec_blob (enc_blob bs ++ rest) = Some (bs, rest).
Proof.
  unfold dec_blob, enc_blob. rewrite <- app_assoc, dec_enc_nat.
  rewrite length_app.
  destruct (Nat.leb_spec (length bs) (length bs + length rest)); [|lia].
  rewrite take_app_length, drop_app_length. reflexivity.
Qed.

Lemma dec_enc_entry e rest : dec_entry (enc_entry e ++ rest) = Some (e, rest).
Proof.
  destruct e as [name data|name]; simpl.
  - rewrite <- app_assoc, dec_enc_blob, dec_enc_blob.
    rewrite string_of_list_byte_of_string. reflexivity.
  - rewrite dec_enc_blob, string_of_list_byte_of_string. reflexivity.
Qed.

Lemma dec_enc_entries es rest :
  dec_entries (length es) (concat (map enc_entry es) ++ rest) = Some (es, rest).
Proof.
  induction es as [|e es IH]; simpl; [reflexivity|].
  rewrite <- app_assoc, dec_enc_entry, IH. reflexivity.
Qed.

Lemma decode_encode es : decode (encode es) = Some es.
Proof.
  unfold decode, encode. rewrite dec_enc_nat.
  rewrite <- (app_nil_r (concat _)), dec_enc_entries. reflexivity.
Qed.

#[export] Instance format : ZipFormat :=
  {| zip_encode := Container.encode; zip_decode := Container.decode;
     zip_decode_encode := decode_encode |}.

End ContainerFormat.

(** ** The packer on concrete disks *)

Import ContainerFormat.




(** C6 on the disk with both artifacts. *)
Lemma init_packs_prev_start_witness :
  exists d',
    StateManager_new example_fsm None disk_artifacts =
      (Ok tt, {| self := example_manager; fs := d' |})
    /\ d' !! "w/prev_start_state.zip" =
         Some (File (zip_encode [ZFile "weights.pth" [x01; x02];
                                 ZFile "state.pth" [x03]]))
    /\ d' !! "w/weights.pth" = None /\ d' !! "w/state.pth" = None.
Proof.
  exact (init_packs_prev_start example_fsm None disk_artifacts
           [x01; x02] [x03] eq_refl eq_refl eq_refl).
Defined.

(** C3 on the disk with both artifacts. *)
Lemma pack_unpack_roundtrip_witness :
  in_weights_dir example_fsm = true
  /\ exists w1 w2,
       pack {| self := example_manager; fs := disk_artifacts |} = (Ok tt, w1)
       /\ unpack w1 = (Ok tt, w2)
       /\ fs w2 !! "w/weights.pth" = Some (File [x01; x02])
       /\ fs w2 !! "w/state.pth" = Some (File [x03]).
Proof.
  split; [reflexivity|].
  destruct (pack_unpack_roundtrip example_manager disk_artifacts
              [x01; x02] [x03] eq_refl eq_refl eq_refl eq_refl)
    as (w1 & w2 & Hp & Hu & _ & _ & _ & _ & Hw & Hs).
  exists w1, w2. repeat split; assumption.
Defined.

(** C2 at a concrete input: a manager built on an empty disk. *)
Lemma clear_files_after_new_raises :
  fst (StateManager_new example_fsm None ∅) = Ok tt
  /\ fst (clear_files (snd (StateManager_new example_fsm None ∅))) =
       Raise (KeyError "weights_file").
Proof. vm_compute. split; reflexivity. Qed.

(** C9 at a concrete input: no archive to extract, the paths are tracked. *)
Lemma unpack_records_paths_witness :
  let w := {| self := example_manager; fs := ∅ |} in
  fst (unpack w) = Raise (FileNotFoundError "w/state.zip")
  /\ fst (get_files (snd (unpack w))) =
       Ok (<["state_file" := "w/state.pth"]>
             (<["weights_file" := "w/weights.pth"]> ∅)).
Proof.
  cbv zeta. split; [reflexivity|].
  destruct (unpack_records_paths {| self := example_manager; fs := ∅ |}
              (snd (unpack {| self := example_manager; fs := ∅ |}))
              (fst (unpack {| self := example_manager; fs := ∅ |})))
    as (Hg & _).
  - destruct (unpack _); reflexivity.
  - rewrite Hg. reflexivity.
Defined.

(** * Properties of the augmentations *)

Ltac run_constructor Hc :=
  unfold HorizontalFlip, VerticalFlip, GaussNoise, SNPNoise, Blur, Resize,
    CentralCrop, RandomCrop, RandomRotate, RandomBrightness, RandomContrast,
    Normalize, ToPyTorch, Augmentation_init, param, get_config_path, getitem,
    obind in Hc;
  repeat (simpl in Hc;
          repeat match goal with
                 | E : _ !! _ = Some _ |- _ => rewrite E in Hc
                 end;
          match type of Hc with
          | context [match ?m !! ?k with _ => _ end] =>
              let E := fresh "E" in
              destruct (m !! k) eqn:E; try discriminate Hc
          | context [width_height ?v] =>
              destruct (width_height v); try discriminate Hc
          end);
  injection Hc as <-.

Ltac use_lookups :=
  repeat match goal with
         | E : _ !! _ = Some _ |- _ => rewrite E
         end.

Ltac solve_get_config :=
  eexists; eexists; split; [reflexivity|];
  split; [reflexivity|]; split; [reflexivity|];
  split; [eauto|];
  split; [simpl; use_lookups; reflexivity|];
  unfold dict_update, get_config_own; simpl; split;
  [ intros k Hk; simpl in Hk;
    repeat (destruct Hk as [<-|Hk]; [use_lookups; reflexivity|]);
    destruct Hk
  | rewrite ?dom_union_L, ?dom_insert_L, ?dom_empty_L; set_solver ].

(** C7 (as amended).  For every class of the registry and every
    configuration it is constructed from, [get_config] returns one entry,
    under the key of the class, whose own parameters are those of the
    fragment and which holds nothing else but the percentage; the percentage
    is that of the fragment, except for Resize, Normalize and ToPyTorch,
    where it is 100. *)
Theorem get_config_of_constructed (key : string)
  (ctor : config -> outcome Augmentation) (cfg : config) (a : Augmentation) :
  In (key, ctor) augmentations_dict ->
  ctor cfg = Ok a ->
  exists frag inner,
    cfg !! key = Some frag
    /\ get_name a = key
    /\ get_config a = <[key := inner]> ∅
    /\ is_Some (frag !! "percentage")
    /\ inner !! "percentage" =
         (if forces_percentage key then Some (PInt 100)
          else frag !! "percentage")
    /\ (forall k, In k (own_keys key) -> inner !! k = frag !! k)
    /\ dom inner = (list_to_set ("percentage" :: own_keys key) : gset string).
Proof.
  intros Hin Hc. simpl in Hin.
  repeat (destruct Hin as [Hin|Hin];
          [injection Hin as <- <-; run_constructor Hc; solve_get_config|]).
  destruct Hin.
Qed.

(** C7, counterexample.  Resize constructed with percentage 50 reports
    percentage 100: [get_config] does not give back the fragment. *)
Lemma Resize_get_config_percentage :
  let a := {| aug_name := "resize"; percentage := PInt 100;
              own := resize (PInt 64) resize_by_min_edge |} in
  Resize config_resize_50 = Ok a
  /\ config_resize_50 !! "resize" ≫= (fun f => f !! "percentage") =
       Some (PInt 50)
  /\ get_config a !! "resize" ≫= (fun f => f !! "percentage") =
       Some (PInt 100)
  /\ get_config a <> config_resize_50.
Proof.
  cbv zeta. split; [reflexivity|]. split; [reflexivity|].
  split; [reflexivity|]. intros E.
  apply (f_equal (fun c : config =>
                    c !! "resize" ≫= (fun f => f !! "percentage"))) in E.
  vm_compute in E. discriminate E.
Qed.

(** C7 as amended, on a GaussNoise: its configuration comes back. *)
Lemma get_config_of_constructed_witness :
  let a := {| aug_name := "gauss_noise"; percentage := PInt 30;
              own := gauss_noise (PInt 0) (PInt 4) (PInt 20) |} in
  GaussNoise config_gauss = Ok a
  /\ exists frag inner,
       config_gauss !! "gauss_noise" = Some frag
       /\ get_name a = "gauss_noise"
       /\ get_config a = <["gauss_noise" := inner]> ∅
       /\ is_Some (frag !! "percentage")
       /\ inner !! "percentage" = frag !! "percentage"
       /\ (forall k, In k ["mean"; "var"; "interval"] ->
                     inner !! k = frag !! k)
       /\ dom inner =
            (list_to_set ["percentage"; "mean"; "var"; "interval"]
             : gset string).
Proof.
  cbv zeta. split; [reflexivity|].
  exact (get_config_of_constructed "gauss_noise" GaussNoise config_gauss _
           (or_intror (or_intror (or_introl eq_refl))) eq_refl).
Defined.

(** ** The random sources *)

Lemma draw_range (n : Z) (tape : list Z) :
  0 < n -> 0 <= fst (draw n tape) < n.
Proof.
  intros Hn. destruct tape as [|x t]; simpl; [lia|].
  apply Z.mod_pos_bound. exact Hn.
Qed.

(** [randint(a, b)] on a non-empty range: the next raw integer, reduced modulo
    the number of values, is added to [a]. *)
Lemma randint_run (a b : Z) (g : rng) :
  a <= b ->
  randint a b g =
    (Ok (a + fst (draw (b - a + 1) (py_random g))),
     {| py_random := snd (draw (b - a + 1) (py_random g));
        np_random := np_random g |}).
Proof.
  intros Hab. unfold randint.
  destruct (Z.ltb_spec b a); [lia|].
  destruct (draw _ _); reflexivity.
Qed.

Lemma randint_range (a b : Z) (g : rng) :
  a <= b -> a <= a + fst (draw (b - a + 1) (py_random g)) <= b.
Proof.
  intros Hab. pose proof (draw_range (b - a + 1) (py_random g)). lia.
Qed.

(** Every integer of the range is drawn, by the raw integer at that
    distance from [a]. *)
Lemma randint_onto (a b k : Z) (tape nptape : list Z) :
  a <= k <= b ->
  randint a b {| py_random := (k - a) :: tape; np_random := nptape |} =
    (Ok k, {| py_random := tape; np_random := nptape |}).
Proof.
  intros Hk. rewrite randint_run by lia. simpl.
  rewrite Z.mod_small by lia. f_equal. f_equal. lia.
Qed.

(** C4.  A call draws one integer [r] of 1..100, the next raw integer of the
    generator reduced modulo 100 plus one, and returns [process(data)] when
    [r] is at most the percentage and [data] otherwise; at percentage 100
    every call is [process(data)], at percentage 0 every call is [data]. *)
Theorem call_by_percentage {D : Type} (process : Augmentation -> D -> M rng D)
  (name : string) (o : fields) (data : D) (g : rng) :
  let aug p := {| aug_name := name; percentage := PInt p; own := o |} in
  let r := 1 + fst (draw 100 (py_random g)) in
  let g' := {| py_random := snd (draw 100 (py_random g));
               np_random := np_random g |} in
  randint 1 100 g = (Ok r, g')
  /\ 1 <= r <= 100
  /\ (forall p, call process (aug p) data g =
                if r <=? p then process (aug p) data g' else (Ok data, g'))
  /\ call process (aug 100) data g = process (aug 100) data g'
  /\ call process (aug 0) data g = (Ok data, g').
Proof.
  cbv zeta.
  pose proof (randint_run 1 100 g ltac:(lia)) as Hr.
  pose proof (randint_range 1 100 g ltac:(lia)) as Hrange.
  change (100 - 1 + 1) with 100 in *.
  set (r := 1 + fst (draw 100 (py_random g))) in *.
  set (g' := {| py_random := _; np_random := _ |}) in *.
  assert (Hcall : forall p,
            call process {| aug_name := name; percentage := PInt p; own := o |}
              data g =
            if r <=? p
            then process {| aug_name := name; percentage := PInt p; own := o |}
                   data g'
            else (Ok data, g')).
  { intros p. unfold call, bind. rewrite Hr. simpl.
    destruct (r <=? p); reflexivity. }
  split; [exact Hr|]. split; [exact Hrange|]. split; [exact Hcall|].
  split.
  - rewrite Hcall. destruct (Z.leb_spec r 100); [reflexivity | lia].
  - rewrite Hcall. destruct (Z.leb_spec r 0); [lia | reflexivity].
Qed.

(** C8.  [RandomCrop.process] with integer sizes never raises.  On each axis
    the offset is 0 when the size is not below the dimension, and otherwise
    the integer that [randint] draws in 0..dimension - size, the offsets at
    which the window fits; the window starts at that offset. *)
Theorem RandomCrop_process_offsets (name : string) (p sz : pyval)
  (width height : Z) (data : ndarray) (g : rng) :
  let self := {| aug_name := name; percentage := p;
                 own := rcrop sz (PInt width) (PInt height) |} in
  let h := fst (fst (shape data)) in
  let w := snd (fst (shape data)) in
  let dx := if width <? w
            then fst (draw (w - width + 1) (py_random g)) else 0 in
  let g1 := if width <? w
            then {| py_random := snd (draw (w - width + 1) (py_random g));
                    np_random := np_random g |}
            else g in
  let dy := if height <? h
            then fst (draw (h - height + 1) (py_random g1)) else 0 in
  let g2 := if height <? h
            then {| py_random := snd (draw (h - height + 1) (py_random g1));
                    np_random := np_random g1 |}
            else g1 in
  RandomCrop_process self data g =
    (Ok (getslice data dy (dy + height) dx (dx + width)), g2)
  /\ 0 <= dx <= Z.max 0 (w - width)
  /\ 0 <= dy <= Z.max 0 (h - height)
  /\ (if width <? w then randint 0 (w - width) g = (Ok dx, g1)
      else dx = 0 /\ g1 = g)
  /\ (if height <? h then randint 0 (h - height) g1 = (Ok dy, g2)
      else dy = 0 /\ g2 = g1).
Proof.
  cbv zeta. unfold RandomCrop_process. cbn [own].
  destruct (shape data) as [[h w] c] eqn:Es. cbn [fst snd].
  unfold bind, lift_outcome, as_int, ret. cbv beta iota.
  destruct (Z.ltb_spec width w) as [Hw|Hw];
    destruct (Z.ltb_spec height h) as [Hh|Hh];
    rewrite ?(randint_run 0 (w - width)) by lia;
    rewrite ?(randint_run 0 (h - height)) by lia;
    rewrite ?Z.sub_0_r; simpl;
    try pose proof (draw_range (w - width + 1) (py_random g) ltac:(lia));
    try pose proof (draw_range (h - height + 1) (py_random g) ltac:(lia));
    try pose proof (draw_range (h - height + 1)
                      (snd (draw (w - width + 1) (py_random g))) ltac:(lia));
    repeat split; try reflexivity; try lia.
Qed.

(** ** Salt and pepper: the integers drawn and the rows assigned *)

Lemma draws_spec (n : Z) (k : nat) (tape : list Z) :
  0 < n ->
  length (fst (draws n k tape)) = k
  /\ Forall (fun x => 0 <= x < n) (fst (draws n k tape)).
Proof.
  intros Hn. revert tape. induction k as [|k IH]; intros tape; simpl.
  - split; [reflexivity | constructor].
  - pose proof (draw_range n tape Hn) as Hd.
    destruct (draw n tape) as [x t]. specialize (IH t).
    destruct (draws n k t) as [xs t']. simpl in *.
    destruct IH as [Hl Hf]. split; [now rewrite Hl|].
    constructor; assumption.
Qed.

(** [numpy.random.randint(low, high, size)] returns [size] integers, all of
    them below [high]. *)
Lemma np_random_randint_run (low high size : Z) (g : rng) :
  low < high -> 0 <= size ->
  exists xs g',
    np_random_randint low high size g = (Ok xs, g')
    /\ length xs = Z.to_nat size
    /\ Forall (fun x => low <= x < high) xs.
Proof.
  intros Hlh Hs. unfold np_random_randint.
  destruct (Z.eqb_spec size 0) as [->|Hne].
  { exists [], g. split; [reflexivity|]. split; [reflexivity|constructor]. }
  destruct (Z.leb_spec high low); [lia|].
  destruct (Z.ltb_spec size 0); [lia|]. simpl.
  pose proof (draws_spec (high - low) (Z.to_nat size) (np_random g)
                ltac:(lia)) as [Hl Hf].
  destruct (draws _ _ _) as [xs t]. simpl in *.
  eexists; eexists. split; [reflexivity|]. split.
  - now rewrite length_map.
  - apply Forall_map. eapply Forall_impl; [exact Hf|].
    intros x Hx. simpl in Hx. lia.
Qed.

(** Whatever it is asked, [numpy.random.randint] raises [ValueError] without
    drawing, or returns integers of the range; it returns on an empty range
    only when no integer is asked for. *)
Lemma np_random_randint_cases (low high size : Z) (g : rng) :
  np_random_randint low high size g = (Raise ValueError, g) /\ size <> 0
  \/ exists xs g',
       np_random_randint low high size g = (Ok xs, g')
       /\ Forall (fun x => low <= x < high) xs
       /\ (size = 0 /\ xs = [] /\ g' = g \/ 0 < size /\ low < high).
Proof.
  unfold np_random_randint.
  destruct (Z.eqb_spec size 0) as [->|Hne].
  { right. exists [], g. split; [reflexivity|]. split; [constructor|].
    left. auto. }
  destruct (Z.leb_spec high low) as [Hle|Hlt]; simpl; [left; auto|].
  destruct (Z.ltb_spec size 0) as [Hneg|Hpos]; [left; auto|].
  right.
  pose proof (draws_spec (high - low) (Z.to_nat size) (np_random g)
                ltac:(lia)) as [_ Hf].
  destruct (draws _ _ _) as [xs t]. simpl in Hf.
  eexists _, _. split; [reflexivity|]. split; [|right; lia].
  apply Forall_map. eapply Forall_impl; [exact Hf|].
  intros x Hx. simpl in Hx. lia.
Qed.

Lemma np_random_randint_below (low high size : Z) (g g' : rng)
  (xs : list Z) :
  np_random_randint low high size g = (Ok xs, g') ->
  Forall (fun x => low <= x < high) xs.
Proof.
  intros Hr.
  destruct (np_random_randint_cases low high size g)
    as [[Hraise _]|(xs' & g1 & Hrun & Hf & _)].
  - rewrite Hraise in Hr. discriminate Hr.
  - rewrite Hrun in Hr. injection Hr as <- _. exact Hf.
Qed.

Lemma axis_index_run (n i : Z) :
  0 <= i < n -> axis_index n i = Ok (Z.to_nat i).
Proof.
  intros Hi. unfold axis_index.
  destruct (Z.ltb_spec i 0); [lia|].
  destruct (Z.leb_spec 0 i); [|lia].
  destruct (Z.ltb_spec i n); [|lia]. reflexivity.
Qed.

Lemma Qceiling_nonneg (q : Q) : (0 <= q)%Q -> 0 <= Qceiling q.
Proof.
  intros Hq. change 0 with (Qceiling (inject_Z 0)).
  apply Qceiling_resp_le. exact Hq.
Qed.

(** C10.  The integers that [numpy.random.randint(0, n - 1, count)] returns
    are all below [n - 1], and yet elements at the last index of an axis are
    set: the list of the three coordinate arrays selects rows, which are
    assigned whole.  On the 2 x 2 x 2 image with one salt and one
    pepper coordinate the integer drawn for every axis is 0, whatever the
    generator, and the whole of row 0 becomes 0: the element in the last
    column and the last channel of that row goes from 21 to 0. *)
Theorem SNPNoise_process_sets_last_indices :
  (forall n count g0 xs g1,
      np_random_randint 0 (n - 1) count g0 = (Ok xs, g1) ->
      Forall (fun x => 0 <= x < n - 1) xs)
  /\ shape image_2x2x2 = (2, 2, 2)
  /\ getitem3 image_2x2x2 0 1 1 = Some 21
  /\ forall tape : list Z,
       exists out g',
         SNPNoise_process snp_quarter image_2x2x2
           {| py_random := []; np_random := tape |} = (Ok out, g')
         /\ getitem3 out 0 1 1 = Some 0
         /\ px out = [[[0; 0]; [0; 0]]; [[30; 31]; [40; 41]]].
Proof.
  split.
  { intros n count g0 xs g1. apply np_random_randint_below. }
  split; [reflexivity|]. split; [reflexivity|].
  intros tape.
  assert (Hdraw : forall t : list Z,
            np_random_randint 0 1 1 {| py_random := []; np_random := t |} =
              (Ok [0], {| py_random := []; np_random := tl t |})).
  { intros [|x t]; unfold np_random_randint; simpl; [reflexivity|].
    rewrite Z.mod_1_r. reflexivity. }
  assert (Hpass : forall (out : ndarray) (v : Z) (t : list Z),
            shape out = (2, 2, 2) ->
            snp_pass out 1 v {| py_random := []; np_random := t |} =
              (setitem_coords out [0] [0] [0] v,
               {| py_random := []; np_random := tl (tl (tl t)) |})).
  { intros out v t Hs. unfold snp_pass. rewrite Hs. unfold bind.
    change (2 - 1) with 1. rewrite !Hdraw. reflexivity. }
  eexists _, _. split.
  - unfold SNPNoise_process, snp_quarter. cbn [own].
    unfold bind at 1, lift_outcome at 1, as_num.
    unfold bind at 1, lift_outcome at 1.
    change (np_ceil _) with 1 at 1. change (np_ceil _) with 1.
    unfold snp_paint, bind. rewrite Hpass by reflexivity.
    change (setitem_coords image_2x2x2 [0] [0] [0] 255)
      with (Ok {| shape := (2, 2, 2);
                  px := [[[255; 255]; [255; 255]];
                         [[30; 31]; [40; 41]]] |}).
    cbv iota. rewrite Hpass by reflexivity. reflexivity.
  - split; reflexivity.
Qed.

(** * Further properties of the checkpoint packer *)

Section StateManagerFurther.
Context `{ZipFormat}.

Lemma string_append_inj (s a b : string) :
  (s ++ a)%string = (s ++ b)%string -> a = b.
Proof.
  induction s as [|c s IH]; simpl; intros E; [exact E|].
  injection E as E. exact (IH E).
Qed.

(** Two relative names joined to one directory give two paths. *)
Lemma path_join_neq (dir a b : string) :
  a <> b -> startswith_sep a = false -> startswith_sep b = false ->
  path_join dir a <> path_join dir b.
Proof.
  intros Hab Ha Hb E. unfold path_join in E. rewrite Ha, Hb in E.
  destruct (String.eqb dir "" || endswith_sep dir).
  - apply string_append_inj in E. contradiction.
  - apply string_append_inj in E. injection E as E. contradiction.
Qed.

(** [extractall] of file members, none of them aimed at a directory: every
    path holds the bytes of the last member extracted to it, or what it held
    before. *)
Lemma extractall_files (dir : string) (es : list zentry) (d : disk) :
  forallb (extractable dir d) es = true ->
  exists d',
    extractall dir es d = (Ok tt, d')
    /\ forall p, d' !! p = match member_data dir es p with
                           | Some b => Some (File b)
                           | None => d !! p
                           end.
Proof.
  revert d. induction es as [|e es IH]; intros d Hes.
  - exists d. split; [reflexivity|]. intros p. reflexivity.
  - simpl in Hes. apply andb_prop in Hes. destruct Hes as [He Hes].
    destruct e as [name data|name]; [|discriminate He].
    simpl in He. apply negb_true_iff in He. unfold isdir in He.
    assert (Hes' : forallb (extractable dir
                     (<[path_join dir name := File data]> d)) es = true).
    { apply forallb_forall. intros e' Hin.
      rewrite forallb_forall in Hes. specialize (Hes e' Hin).
      destruct e' as [n' b'|n']; [|exact Hes]. simpl in *.
      apply negb_true_iff in Hes. apply negb_true_iff.
      unfold isdir in *.
      destruct (decide (path_join dir name = path_join dir n')) as [E|E].
      - rewrite <- E, lookup_insert_eq. reflexivity.
      - rewrite lookup_insert_ne by exact E. exact Hes. }
    destruct (IH _ Hes') as (d' & Hrun & Hlook).
    exists d'. split.
    + simpl. unfold bind, extract_member.
      destruct (d !! path_join dir name) as [[?|]|]; try discriminate He;
        exact Hrun.
    + intros p. rewrite Hlook. simpl.
      destruct (member_data dir es p); [reflexivity|].
      destruct (String.eqb_spec (path_join dir name) p) as [->|Hne].
      * apply lookup_insert_eq.
      * apply lookup_insert_ne. exact Hne.
Qed.

(** X1.  [unpack] of a readable archive whose members are regular files
    with plain base names, none of them aimed at a directory or at the
    archive itself, succeeds, and afterwards every path holds the bytes of
    the last member extracted to it (replacing what was there) or, when no
    member goes there, what it held before. *)
Theorem unpack_extracts (s : StateManager) (d : disk) (es : list zentry) :
  let dir := weights_dir (file_struct_manager s) in
  d !! construct_result_file s = Some (File (zip_encode es)) ->
  forallb (plain_member dir (construct_result_file s) d) es = true ->
  exists w',
    unpack {| self := s; fs := d |} = (Ok tt, w')
    /\ forall p, fs w' !! p = match member_data dir es p with
                              | Some b => Some (File b)
                              | None => d !! p
                              end.
Proof.
  cbv zeta. intros Hrf Hplain.
  assert (Hes : forallb (extractable (weights_dir (file_struct_manager s)) d)
                  es = true).
  { apply forallb_forall. intros e Hin.
    rewrite forallb_forall in Hplain. specialize (Hplain e Hin).
    unfold plain_member in Hplain. apply andb_prop in Hplain.
    destruct Hplain as [He _]. exact He. }
  destruct (extractall_files _ es d Hes) as (d' & Hrun & Hlook).
  eexists. split.
  - rewrite unpack_run. cbv zeta. unfold with_ZipFile_r.
    rewrite Hrf, zip_decode_encode, Hrun. reflexivity.
  - exact Hlook.
Qed.

(** X2.  An archive that holds the weights member alone is unpacked without
    an error; [get_files] then names a state file, and no file is there. *)
Theorem unpack_incomplete_archive (s : StateManager) (d : disk)
  (bw : list byte) :
  let dir := weights_dir (file_struct_manager s) in
  d !! construct_result_file s =
    Some (File (zip_encode [ZFile "weights.pth" bw])) ->
  d !! path_join dir "weights.pth" <> Some Dir ->
  d !! path_join dir "state.pth" = None ->
  exists w' tracked,
    unpack {| self := s; fs := d |} = (Ok tt, w')
    /\ get_files w' = (Ok tracked, w')
    /\ tracked !! "state_file" = Some (path_join dir "state.pth")
    /\ fs w' !! path_join dir "state.pth" = None
    /\ fs w' !! path_join dir "weights.pth" = Some (File bw).
Proof.
  cbv zeta. intros Hrf Hw Hs.
  set (dir := weights_dir (file_struct_manager s)) in *.
  assert (Hes : forallb (extractable dir d) [ZFile "weights.pth" bw] = true).
  { simpl. unfold isdir.
    destruct (d !! path_join dir "weights.pth") as [[?|]|];
      try reflexivity. congruence. }
  destruct (extractall_files dir _ d Hes) as (d' & Hrun & Hlook).
  eexists. eexists. split.
  { rewrite unpack_run. cbv zeta. unfold with_ZipFile_r.
    rewrite Hrf, zip_decode_encode. fold dir. rewrite Hrun. reflexivity. }
  unfold get_files, bind, get, ret. simpl.
  split; [reflexivity|]. split; [apply lookup_insert_eq|].
  rewrite !Hlook. simpl. rewrite String.eqb_refl.
  split; [|reflexivity].
  destruct (String.eqb_spec (path_join dir "weights.pth")
              (path_join dir "state.pth")) as [E|_]; [|exact Hs].
  apply path_join_neq in E; [destruct E | discriminate | reflexivity
                            | reflexivity].
Qed.

Lemma isfile_removed (q : string) (m : disk) : isfile (removed q m) q = false.
Proof.
  unfold removed, isfile. destruct (m !! q) as [[?|]|] eqn:E;
    rewrite ?lookup_delete_eq, ?E; reflexivity.
Qed.

Lemma removed_lookup_ne (p q : string) (m : disk) :
  p <> q -> removed q m !! p = m !! p.
Proof.
  intros Hne. unfold removed. destruct (isfile m q); [|reflexivity].
  apply lookup_delete_ne. congruence.
Qed.

Lemma isfile_removed_other (p q : string) (m : disk) :
  isfile m p = false -> isfile (removed q m) p = false.
Proof.
  intros Hp. destruct (decide (p = q)) as [->|Hne]; [apply isfile_removed|].
  unfold isfile in *. rewrite removed_lookup_ne by exact Hne. exact Hp.
Qed.

Lemma removed_lookup_dir (p q : string) (m : disk) :
  m !! p = Some Dir -> removed q m !! p = Some Dir.
Proof.
  intros Hp. destruct (decide (p = q)) as [->|Hne].
  - unfold removed, isfile. rewrite Hp. exact Hp.
  - rewrite removed_lookup_ne by exact Hne. exact Hp.
Qed.

(** X3.  With both keys tracked, [clear_files] succeeds: no regular file is
    left at either tracked path, nothing is tracked any more, and every other
    path, and every directory, is as before. *)
Theorem clear_files_removes_tracked (w : world) (p1 p2 : string) :
  files (self w) !! "weights_file" = Some p1 ->
  files (self w) !! "state_file" = Some p2 ->
  exists w',
    clear_files w = (Ok tt, w')
    /\ files (self w') = ∅
    /\ file_struct_manager (self w') = file_struct_manager (self w)
    /\ preffix (self w') = preffix (self w)
    /\ isfile (fs w') p1 = false /\ isfile (fs w') p2 = false
    /\ (forall p, p <> p1 -> p <> p2 -> fs w' !! p = fs w !! p)
    /\ (forall p, fs w !! p = Some Dir -> fs w' !! p = Some Dir).
Proof.
  intros H1 H2. destruct w as [s d]. simpl in *.
  exists {| self := {| file_struct_manager := file_struct_manager s;
                       files := ∅; preffix := preffix s |};
            fs := removed p2 (removed p1 d) |}.
  split.
  { unfold clear_files, files_getitem, get, on_disk, set_files, modify,
      ret, bind. simpl. rewrite H1. simpl. rewrite rm_file_spec. simpl.
    rewrite H2. simpl. rewrite rm_file_spec. reflexivity. }
  simpl. repeat split.
  - apply isfile_removed_other, isfile_removed.
  - apply isfile_removed.
  - intros p Hp1 Hp2. rewrite !removed_lookup_ne by assumption. reflexivity.
  - intros p Hp. apply removed_lookup_dir, removed_lookup_dir. exact Hp.
Qed.

Lemma member_data_tracked (dir : string) (es : list zentry) (p : string)
  (b : list byte) :
  forallb tracked_member es = true ->
  member_data dir es p = Some b ->
  p = path_join dir "weights.pth" \/ p = path_join dir "state.pth".
Proof.
  induction es as [|e es IH]; simpl; [discriminate|].
  intros Hes Hm. apply andb_prop in Hes. destruct Hes as [He Hes].
  destruct (member_data dir es p) as [b'|]; [now apply IH|].
  destruct e as [name data|name]; [|discriminate].
  destruct (String.eqb_spec (path_join dir name) p) as [<-|]; [|discriminate].
  simpl in He. apply orb_prop in He.
  destruct He as [He|He]; apply String.eqb_eq in He; subst; auto.
Qed.

(** X4.  On a disk with nothing at the two tracked paths, [unpack] of an
    archive whose members are files named weights.pth and state.pth,
    followed by [clear_files], succeeds and leaves the disk exactly as it
    was, with nothing tracked. *)
Theorem unpack_clear_files_restores (s : StateManager) (d : disk)
  (es : list zentry) :
  let dir := weights_dir (file_struct_manager s) in
  d !! construct_result_file s = Some (File (zip_encode es)) ->
  forallb tracked_member es = true ->
  d !! path_join dir "weights.pth" = None ->
  d !! path_join dir "state.pth" = None ->
  (unpack >> clear_files) {| self := s; fs := d |} =
    (Ok tt, {| self := {| file_struct_manager := file_struct_manager s;
                          files := ∅; preffix := preffix s |};
               fs := d |}).
Proof.
  cbv zeta. intros Hrf Hes Hw Hs.
  set (dir := weights_dir (file_struct_manager s)) in *.
  assert (Hex : forallb (extractable dir d) es = true).
  { apply forallb_forall. intros e Hin.
    rewrite forallb_forall in Hes. specialize (Hes e Hin).
    destruct e as [name data|name]; [|discriminate Hes]. simpl in *.
    apply orb_prop in Hes. unfold isdir.
    destruct Hes as [He|He]; apply String.eqb_eq in He; subst;
      rewrite ?Hw, ?Hs; reflexivity. }
  destruct (extractall_files dir es d Hex) as (d' & Hrun & Hlook).
  unfold bind at 1. rewrite unpack_run. cbv zeta. unfold with_ZipFile_r.
  rewrite Hrf, zip_decode_encode. fold dir. rewrite Hrun. simpl.
  unfold clear_files, files_getitem, get, on_disk, set_files, modify,
    ret, bind. simpl.
  rewrite lookup_insert_ne by discriminate. rewrite lookup_insert_eq. simpl.
  rewrite rm_file_spec. simpl. rewrite lookup_insert_eq. simpl.
  rewrite rm_file_spec. simpl. f_equal. f_equal.
  fold (removed (path_join dir "weights.pth") d').
  fold (removed (path_join dir "state.pth")
          (removed (path_join dir "weights.pth") d')).
  apply map_eq. intros p.
  assert (Hnf : forall q, q = path_join dir "weights.pth"
                          \/ q = path_join dir "state.pth" ->
                          d' !! q <> Some Dir).
  { intros q Hq. rewrite Hlook. destruct (member_data dir es q);
      [discriminate|]. destruct Hq as [->| ->]; congruence. }
  assert (Hrm : forall q (m : disk), m !! q <> Some Dir ->
                                     removed q m = delete q m).
  { intros q m Hm. unfold removed, isfile.
    destruct (m !! q) as [[?|]|] eqn:E; try reflexivity; [congruence|].
    symmetry. apply delete_id. exact E. }
  rewrite (Hrm _ d') by (apply Hnf; auto).
  rewrite Hrm.
  2:{ destruct (decide (path_join dir "weights.pth"
                        = path_join dir "state.pth")) as [E|E].
      - rewrite <- E, lookup_delete_eq. discriminate.
      - rewrite lookup_delete_ne by exact E. apply Hnf. auto. }
  destruct (decide (p = path_join dir "state.pth")) as [->|Hps].
  { rewrite lookup_delete_eq. symmetry. exact Hs. }
  rewrite lookup_delete_ne by congruence.
  destruct (decide (p = path_join dir "weights.pth")) as [->|Hpw].
  { rewrite lookup_delete_eq. symmetry. exact Hw. }
  rewrite lookup_delete_ne by congruence. rewrite Hlook.
  destruct (member_data dir es p) as [b|] eqn:Em; [|reflexivity].
  destruct (member_data_tracked dir es p b Hes Em); contradiction.
Qed.

Lemma archive_ready_intro (s : StateManager) (d : disk) :
  let wf := weights_file (file_struct_manager s) in
  let sf := optimizer_state_file (file_struct_manager s) in
  let rf := construct_result_file s in
  let old := (rf ++ ".old")%string in
  rf <> wf -> rf <> sf -> old <> wf -> old <> sf ->
  d !! rf <> Some Dir -> d !! old <> Some Dir ->
  archive_ready s d = true.
Proof.
  cbv zeta. intros H1 H2 H3 H4 H5 H6. unfold archive_ready.
  apply String.eqb_neq in H1, H2, H3, H4. rewrite H1, H2, H3, H4. simpl.
  unfold isdir, isfile.
  destruct (d !! construct_result_file s) as [[?|]|]; try congruence;
    destruct (d !! (construct_result_file s ++ ".old")%string) as [[?|]|];
    try congruence; reflexivity.
Qed.

Lemma rotate_old_not_dir (file : string) (d : disk) :
  d !! (file ++ ".old")%string <> Some Dir ->
  rotate file d !! (file ++ ".old")%string <> Some Dir.
Proof.
  intros Hd. unfold rotate. set (old := (file ++ ".old")%string) in *.
  set (d1 := if isfile d old then delete old d else d).
  assert (H1 : d1 !! old <> Some Dir).
  { unfold d1. destruct (isfile d old); [|exact Hd].
    rewrite lookup_delete_eq. discriminate. }
  destruct (d1 !! file) as [[bs|]|]; try exact H1.
  rewrite lookup_insert_eq. discriminate.
Qed.

(** X5.  A second [pack] right after a successful one finds no artifact
    left: it raises the file-not-found error of the weights file, and by
    then it has moved the archive just written to the backup path and put an
    archive without members in its place. *)
Theorem pack_twice_empties_archive (s : StateManager) (d : disk)
  (bw bs : list byte) :
  let wf := weights_file (file_struct_manager s) in
  let sf := optimizer_state_file (file_struct_manager s) in
  let rf := construct_result_file s in
  let old := (rf ++ ".old")%string in
  archive_ready s d = true ->
  d !! old <> Some Dir ->
  d !! wf = Some (File bw) ->
  d !! sf = Some (File bs) ->
  exists w',
    (pack >> pack) {| self := s; fs := d |} =
      (Raise (FileNotFoundError wf), w')
    /\ fs w' !! rf = Some (File (zip_encode []))
    /\ fs w' !! old =
         Some (File (zip_encode [ZFile (basename wf) bw;
                                 ZFile (basename sf) bs]))
    /\ fs w' !! wf = None /\ fs w' !! sf = None.
Proof.
  cbv zeta. intros Hr Hold Hw Hs.
  pose proof (pack_ok s d bw bs Hr Hw Hs) as Hrun. cbv zeta in Hrun.
  pose proof (archive_ready_spec s d Hr) as Hspec. cbv zeta in Hspec.
  destruct Hspec as (Hwf & Hsf & Howf & Hosf & Hdir & Hrot).
  set (wf := weights_file (file_struct_manager s)) in *.
  set (sf := optimizer_state_file (file_struct_manager s)) in *.
  set (rf := construct_result_file s) in *.
  set (es := [ZFile (basename wf) bw; ZFile (basename sf) bs]) in *.
  set (d1 := delete sf (delete wf (<[rf := File (zip_encode es)]>
                                      (rotate rf d)))) in *.
  assert (H1rf : d1 !! rf = Some (File (zip_encode es))).
  { unfold d1. rewrite lookup_delete_ne by congruence.
    rewrite lookup_delete_ne by congruence. apply lookup_insert_eq. }
  assert (H1old : d1 !! (rf ++ ".old")%string <> Some Dir).
  { unfold d1. rewrite lookup_delete_ne by congruence.
    rewrite lookup_delete_ne by congruence.
    rewrite lookup_insert_ne by (symmetry; apply old_neq).
    apply rotate_old_not_dir. exact Hold. }
  assert (H1sf : d1 !! sf = None) by apply lookup_delete_eq.
  assert (H1wf : d1 !! wf = None).
  { unfold d1. destruct (decide (sf = wf)) as [E|E].
    - rewrite E. apply lookup_delete_eq.
    - rewrite lookup_delete_ne by congruence. apply lookup_delete_eq. }
  assert (Hr1 : archive_ready s d1 = true).
  { apply archive_ready_intro; fold wf sf rf; try assumption.
    rewrite H1rf. discriminate. }
  pose proof (pack_run s d1 Hr1) as Hrun1. cbv zeta in Hrun1.
  fold wf sf rf in Hrun1. rewrite H1wf in Hrun1.
  eexists. split.
  { unfold bind at 1. rewrite Hrun. exact Hrun1. }
  simpl. split; [apply lookup_insert_eq|]. split.
  { rewrite lookup_insert_ne by (symmetry; apply old_neq).
    apply rotate_lookup_old. exact H1rf. }
  split.
  - rewrite lookup_insert_ne by congruence.
    rewrite rotate_lookup_other by congruence. exact H1wf.
  - rewrite lookup_insert_ne by congruence.
    rewrite rotate_lookup_other by congruence. exact H1sf.
Qed.

(** X6.  When no archive stands at the archive path, [pack] still deletes a
    regular file at the backup path: afterwards there is the new archive and
    no backup. *)
Theorem pack_drops_stale_backup (s : StateManager) (d : disk)
  (stale bw bs : list byte) :
  let wf := weights_file (file_struct_manager s) in
  let sf := optimizer_state_file (file_struct_manager s) in
  let rf := construct_result_file s in
  let old := (rf ++ ".old")%string in
  archive_ready s d = true ->
  d !! rf = None ->
  d !! old = Some (File stale) ->
  d !! wf = Some (File bw) ->
  d !! sf = Some (File bs) ->
  exists w',
    pack {| self := s; fs := d |} = (Ok tt, w')
    /\ fs w' !! old = None
    /\ fs w' !! rf =
         Some (File (zip_encode [ZFile (basename wf) bw;
                                 ZFile (basename sf) bs])).
Proof.
  cbv zeta. intros Hr Hrf Hold Hw Hs.
  pose proof (pack_ok s d bw bs Hr Hw Hs) as Hrun. cbv zeta in Hrun.
  pose proof (archive_ready_spec s d Hr) as Hspec. cbv zeta in Hspec.
  destruct Hspec as (Hwf & Hsf & Howf & Hosf & Hdir & Hrot).
  set (wf := weights_file (file_struct_manager s)) in *.
  set (sf := optimizer_state_file (file_struct_manager s)) in *.
  set (rf := construct_result_file s) in *.
  eexists. split; [exact Hrun|]. simpl. split.
  - rewrite lookup_delete_ne by congruence.
    rewrite lookup_delete_ne by congruence.
    rewrite lookup_insert_ne by (symmetry; apply old_neq).
    unfold rotate, isfile. rewrite Hold.
    rewrite lookup_delete_ne by apply old_neq. rewrite Hrf.
    apply lookup_delete_eq.
  - rewrite lookup_delete_ne by congruence.
    rewrite lookup_delete_ne by congruence. apply lookup_insert_eq.
Qed.

(** X7.  Unless both artifacts are regular files, the constructor packs
    nothing: it returns the object with the prefix of the caller and nothing
    tracked, and the disk is as it was. *)
Theorem init_without_artifacts (fsm : FileStructManager) (p : option string)
  (d : disk) :
  isfile d (weights_file fsm) && isfile d (optimizer_state_file fsm) = false ->
  StateManager_new fsm p d =
    (Ok tt, {| self := {| file_struct_manager := fsm; files := ∅;
                          preffix := p |};
               fs := d |}).
Proof.
  intros Hno.
  unfold StateManager_new, init, set_file_struct_manager, set_files,
    set_preffix, modify, get, bind; simpl.
  unfold exists_, isfile in *.
  destruct (d !! weights_file fsm) as [[?|]|];
    destruct (d !! optimizer_state_file fsm) as [[?|]|];
    try discriminate Hno; reflexivity.
Qed.

End StateManagerFurther.

(** ** The further properties of the packer on concrete disks *)

(** X1 on a complete archive beside an unrelated file. *)
Lemma unpack_extracts_witness :
  exists w',
    unpack {| self := example_manager; fs := disk_archive_complete |} =
      (Ok tt, w')
    /\ fs w' !! "w/weights.pth" = Some (File [x01; x02])
    /\ fs w' !! "w/state.pth" = Some (File [x03])
    /\ fs w' !! "w/notes.txt" = Some (File [x09]).
Proof.
  destruct (unpack_extracts (H := ContainerFormat.format)
              example_manager disk_archive_complete
              [ZFile "weights.pth" [x01; x02]; ZFile "state.pth" [x03]]
              ltac:(vm_compute; reflexivity) ltac:(vm_compute; reflexivity))
    as (w' & Hrun & Hlook).
  exists w'. split; [exact Hrun|].
  rewrite !Hlook. repeat split; reflexivity.
Defined.

(** X2 on an archive of the weights alone. *)
Lemma unpack_incomplete_archive_witness :
  exists w' tracked,
    unpack {| self := example_manager; fs := disk_archive_weights_only |} =
      (Ok tt, w')
    /\ get_files w' = (Ok tracked, w')
    /\ tracked !! "state_file" = Some "w/state.pth"
    /\ fs w' !! "w/state.pth" = None
    /\ fs w' !! "w/weights.pth" = Some (File [x01; x02]).
Proof.
  apply (unpack_incomplete_archive (H := ContainerFormat.format)
           example_manager disk_archive_weights_only
           [x01; x02]);
    [vm_compute; reflexivity | vm_compute; discriminate | reflexivity].
Defined.

(** X3 after [unpack] of the complete archive. *)
Lemma clear_files_removes_tracked_witness :
  exists w',
    clear_files world_unpacked = (Ok tt, w')
    /\ files (self w') = ∅
    /\ isfile (fs w') "w/weights.pth" = false
    /\ isfile (fs w') "w/state.pth" = false
    /\ fs w' !! "w/notes.txt" = Some (File [x09]).
Proof.
  destruct (clear_files_removes_tracked world_unpacked
              "w/weights.pth" "w/state.pth"
              ltac:(vm_compute; reflexivity) ltac:(vm_compute; reflexivity))
    as (w' & Hrun & Hfiles & _ & _ & Hw & Hs & Hframe & _).
  exists w'. split; [exact Hrun|]. split; [exact Hfiles|].
  split; [exact Hw|]. split; [exact Hs|].
  rewrite Hframe by discriminate. reflexivity.
Defined.

(** X4 on the complete archive. *)
Lemma unpack_clear_files_restores_witness :
  (unpack >> clear_files)
    {| self := example_manager; fs := disk_archive_complete |} =
  (Ok tt, {| self := example_manager; fs := disk_archive_complete |}).
Proof.
  exact (unpack_clear_files_restores (H := ContainerFormat.format)
           example_manager disk_archive_complete
           [ZFile "weights.pth" [x01; x02]; ZFile "state.pth" [x03]]
           ltac:(vm_compute; reflexivity) eq_refl eq_refl eq_refl).
Defined.

(** X5 on the disk with both artifacts. *)
Lemma pack_twice_empties_archive_witness :
  exists w',
    (pack >> pack) {| self := example_manager; fs := disk_artifacts |} =
      (Raise (FileNotFoundError "w/weights.pth"), w')
    /\ fs w' !! "w/state.zip" = Some (File (zip_encode []))
    /\ fs w' !! "w/state.zip.old" =
         Some (File (zip_encode [ZFile "weights.pth" [x01; x02];
                                 ZFile "state.pth" [x03]])).
Proof.
  destruct (pack_twice_empties_archive example_manager disk_artifacts
              [x01; x02] [x03] eq_refl ltac:(discriminate) eq_refl eq_refl)
    as (w' & Hrun & Hrf & Hold & _).
  exists w'. split; [exact Hrun|]. split; [exact Hrf | exact Hold].
Defined.

(** X6 on a disk with a backup and no archive. *)
Lemma pack_drops_stale_backup_witness :
  disk_stale_backup !! "w/state.zip.old" = Some (File [x07])
  /\ exists w',
       pack {| self := example_manager; fs := disk_stale_backup |} = (Ok tt, w')
       /\ fs w' !! "w/state.zip.old" = None.
Proof.
  split; [reflexivity|].
  destruct (pack_drops_stale_backup example_manager disk_stale_backup
              [x07] [x01; x02] [x03] eq_refl eq_refl eq_refl eq_refl eq_refl)
    as (w' & Hrun & Hold & _).
  exists w'. split; [exact Hrun | exact Hold].
Defined.

(** X7 on the disk with the weights file alone. *)
Lemma init_without_artifacts_witness :
  StateManager_new example_fsm (Some "run1") disk_weights_only =
    (Ok tt, {| self := {| file_struct_manager := example_fsm; files := ∅;
                          preffix := Some "run1" |};
               fs := disk_weights_only |}).
Proof.
  exact (init_without_artifacts example_fsm (Some "run1") disk_weights_only
           eq_refl).
Defined.

(** * Further properties of the augmentations *)

Ltac registry_cases Hin :=
  simpl in Hin;
  repeat (destruct Hin as [Hin|Hin]; [injection Hin as <- <-|]);
  [..|destruct Hin].

Ltac unfold_constructors :=
  unfold HorizontalFlip, VerticalFlip, GaussNoise, SNPNoise, Blur, Resize,
    CentralCrop, RandomCrop, RandomRotate, RandomBrightness, RandomContrast,
    Normalize, ToPyTorch, Augmentation_init, param, get_config_path, getitem,
    obind.

(** X8.  A constructor of the registry raises [KeyError] for its own key when
    the configuration lacks it, [KeyError] for the first of percentage and
    its own parameters that the fragment lacks, and returns otherwise: every
    class needs a percentage, also the three that overwrite it. *)
Theorem constructor_needs_keys (key : string)
  (ctor : config -> outcome Augmentation) (cfg : config) :
  In (key, ctor) augmentations_dict ->
  match cfg !! key with
  | None => ctor cfg = Raise (KeyError key)
  | Some frag =>
      match first_missing frag ("percentage" :: own_keys key) with
      | Some k => ctor cfg = Raise (KeyError k)
      | None => exists a, ctor cfg = Ok a
      end
  end.
Proof.
  intros Hin. registry_cases Hin;
    match goal with
    | |- match cfg !! ?K with _ => _ end =>
        let frag := fresh "frag" in destruct (cfg !! K) as [frag|] eqn:E
    end;
    unfold_constructors; rewrite ?E; try reflexivity;
    unfold first_missing; simpl;
    repeat (rewrite ?E; simpl;
            match goal with
            | |- context [match ?m !! ?k with _ => _ end] =>
                destruct (m !! k); simpl; try reflexivity
            | |- context [width_height ?v] => destruct (width_height v)
            end);
    rewrite ?E; simpl; eexists; reflexivity.
Qed.

Ltac run_constructor_eqn Hc :=
  unfold HorizontalFlip, VerticalFlip, GaussNoise, SNPNoise, Blur, Resize,
    CentralCrop, RandomCrop, RandomRotate, RandomBrightness, RandomContrast,
    Normalize, ToPyTorch, Augmentation_init, param, get_config_path, getitem,
    obind in Hc;
  repeat first
    [ progress simpl in Hc
    | match goal with
      | E : _ !! _ = Some _ |- _ => rewrite E in Hc
      end
    | match type of Hc with
      | context [match ?m !! ?k with _ => _ end] =>
          let E := fresh "E" in
          destruct (m !! k) eqn:E; try discriminate Hc
      | context [width_height ?v] =>
          let E := fresh "Ewh" in
          destruct (width_height v) eqn:E; try discriminate Hc
      end ];
  injection Hc as <-.

(** X9.  The configuration that [get_config] returns constructs the same
    object again: for every class of the registry, an object constructed
    from any configuration is what its constructor returns on its own
    [get_config]. *)
Theorem get_config_reconstructs (key : string)
  (ctor : config -> outcome Augmentation) (cfg : config) (a : Augmentation) :
  In (key, ctor) augmentations_dict ->
  ctor cfg = Ok a ->
  ctor (get_config a) = Ok a.
Proof.
  intros Hin Hc. registry_cases Hin; run_constructor_eqn Hc;
    unfold_constructors; unfold get_config, dict_update, get_config_own,
      get_name, get_percetage; simpl;
    repeat (match goal with
            | |- context [?m !! ?k] =>
                let Hl := fresh "Hl" in
                eassert (Hl : m !! k = Some _) by reflexivity;
                rewrite Hl; clear Hl
            end; simpl);
    rewrite ?Ewh; reflexivity.
Qed.

(** One call, for an integer percentage. *)
Lemma call_run {D : Type} (process : Augmentation -> D -> M rng D)
  (self : Augmentation) (p : Z) (data : D) (g : rng) :
  percentage self = PInt p ->
  call process self data g =
    let r := 1 + fst (draw 100 (py_random g)) in
    let g' := {| py_random := snd (draw 100 (py_random g));
                 np_random := np_random g |} in
    if r <=? p then process self data g' else (Ok data, g').
Proof.
  intros Hp. cbv zeta. unfold call, bind.
  rewrite (randint_run 1 100 g) by lia. change (100 - 1 + 1) with 100.
  unfold lift_outcome. rewrite Hp. simpl.
  destruct (_ <=? p); reflexivity.
Qed.

(** X10.  An object that Resize, Normalize or ToPyTorch constructs is
    processed at every call, whatever percentage its configuration gives:
    the call consumes one draw and returns what [process] returns. *)
Theorem call_always_processes_forced {D : Type}
  (process : Augmentation -> D -> M rng D) (key : string)
  (ctor : config -> outcome Augmentation) (cfg : config) (a : Augmentation)
  (data : D) (g : rng) :
  In (key, ctor) augmentations_dict ->
  forces_percentage key = true ->
  ctor cfg = Ok a ->
  call process a data g =
    process a data {| py_random := snd (draw 100 (py_random g));
                      np_random := np_random g |}.
Proof.
  intros Hin Hforce Hc.
  assert (Hp : percentage a = PInt 100).
  { registry_cases Hin; try discriminate Hforce;
      run_constructor_eqn Hc; reflexivity. }
  rewrite (call_run process a 100 data g Hp). cbv zeta.
  pose proof (draw_range 100 (py_random g) ltac:(lia)).
  destruct (Z.leb_spec (1 + fst (draw 100 (py_random g))) 100);
    [reflexivity | lia].
Qed.

(** X11.  A percentage that is no number is accepted by the constructor
    and raises [TypeError] at every call, after the draw. *)
Theorem call_non_numeric_percentage {D : Type}
  (process : Augmentation -> D -> M rng D) (key : string)
  (ctor : config -> outcome Augmentation) (cfg : config) (frag : fragment)
  (v : pyval) (a : Augmentation) (data : D) (g : rng) :
  In (key, ctor) augmentations_dict ->
  forces_percentage key = false ->
  cfg !! key = Some frag ->
  frag !! "percentage" = Some v ->
  numeric v = false ->
  ctor cfg = Ok a ->
  call process a data g =
    (Raise TypeError, {| py_random := snd (draw 100 (py_random g));
                         np_random := np_random g |}).
Proof.
  intros Hin Hforce Hfrag Hv Hnum Hc.
  assert (Hp : percentage a = v).
  { registry_cases Hin; try discriminate Hforce;
      run_constructor_eqn Hc; simpl; congruence. }
  unfold call, bind. rewrite (randint_run 1 100 g) by lia.
  change (100 - 1 + 1) with 100. unfold lift_outcome. rewrite Hp.
  destruct v; try discriminate Hnum; reflexivity.
Qed.

Lemma call_applies_run (p x : Z) :
  call_applies p x = (1 + x mod 100 <=? p).
Proof.
  unfold call_applies.
  rewrite (call_run _ _ p) by reflexivity. cbv zeta. simpl.
  destruct (_ <=? p); reflexivity.
Qed.

Lemma count_below_100 (q : Z) :
  0 <= q <= 100 ->
  length (List.filter (fun x => x <? q) (seqZ 0 100)) = Z.to_nat q.
Proof.
  intros Hq.
  assert (Hall : forallb
            (fun q => Nat.eqb
               (length (List.filter (fun x => x <? q) (seqZ 0 100)))
               (Z.to_nat q))
            (seqZ 0 101) = true) by (vm_compute; reflexivity).
  rewrite forallb_forall in Hall.
  apply Nat.eqb_eq. apply Hall. apply list_elem_of_In, elem_of_seqZ. lia.
Qed.

(** X12.  Of the 100 residues that the raw draw can have, those at which a
    call runs [process] number the percentage, cut to the range 0..100: a
    transform of percentage [p] is applied in [p] cases of 100. *)
Theorem call_applies_in_p_of_100 (p : Z) :
  length (List.filter (call_applies p) (seqZ 0 100)) =
    Z.to_nat (Z.max 0 (Z.min 100 p)).
Proof.
  rewrite <- count_below_100 by lia. f_equal.
  apply List.filter_ext_in. intros x Hx.
  apply list_elem_of_In, elem_of_seqZ in Hx.
  rewrite call_applies_run, Z.mod_small by lia.
  destruct (Z.leb_spec (1 + x) p), (Z.ltb_spec x (Z.max 0 (Z.min 100 p)));
    try reflexivity; lia.
Qed.

(** ** The further properties of the augmentations on concrete inputs *)

(** X8 on a blur configured without its kernel size. *)
Lemma constructor_needs_keys_witness :
  Blur config_blur_no_ksize = Raise (KeyError "ksize").
Proof.
  exact (constructor_needs_keys "blur" Blur config_blur_no_ksize
           ltac:(simpl; auto 20)).
Defined.

(** X9 on a resize configured with percentage 0: its own configuration,
    which says 100, constructs it again. *)
Lemma get_config_reconstructs_witness :
  let a := {| aug_name := "resize"; percentage := PInt 100;
              own := resize (PList [PInt 64; PInt 32]) resize_to_defined |} in
  Resize config_resize_0 = Ok a /\ Resize (get_config a) = Ok a.
Proof.
  cbv zeta. split; [reflexivity|].
  exact (get_config_reconstructs "resize" Resize config_resize_0 _
           ltac:(simpl; auto 20) eq_refl).
Defined.

(** X10 on the same resize, for a [process] that negates a flag: the draw
    is 100, the highest there is, and the flag is negated. *)
Lemma call_always_processes_forced_witness :
  let a := {| aug_name := "resize"; percentage := PInt 100;
              own := resize (PList [PInt 64; PInt 32]) resize_to_defined |} in
  call (fun _ (b : bool) => ret (negb b)) a false
       {| py_random := [99; 5]; np_random := [] |} =
    (Ok true, {| py_random := [5]; np_random := [] |}).
Proof.
  exact (call_always_processes_forced (fun _ (b : bool) => ret (negb b))
           "resize" Resize config_resize_0 _ false
           {| py_random := [99; 5]; np_random := [] |}
           ltac:(simpl; auto 20) eq_refl eq_refl).
Defined.

(** X11 on a flip whose percentage is a string. *)
Lemma call_non_numeric_percentage_witness :
  let a := {| aug_name := "hflip"; percentage := PStr "often";
              own := hflip |} in
  HorizontalFlip config_hflip_text = Ok a
  /\ call (fun _ (b : bool) => ret (negb b)) a false
          {| py_random := [0; 5]; np_random := [] |} =
       (Raise TypeError, {| py_random := [5]; np_random := [] |}).
Proof.
  cbv zeta. split; [reflexivity|].
  exact (call_non_numeric_percentage (fun _ (b : bool) => ret (negb b))
           "hflip" HorizontalFlip config_hflip_text
           (<["percentage" := PStr "often"]> ∅) (PStr "often") _ false
           {| py_random := [0; 5]; np_random := [] |}
           ltac:(simpl; auto 20) eq_refl eq_refl eq_refl eq_refl eq_refl).
Defined.

(** * Properties of the two crops *)

Lemma slice_bound_range (n i : Z) : 0 <= n -> 0 <= slice_bound n i <= n.
Proof. intros Hn. unfold slice_bound. destruct (Z.ltb_spec i 0); lia. Qed.

Lemma slice_length {A} (a b : Z) (l : list A) :
  Z.of_nat (length (slice a b l)) = slice_len (Z.of_nat (length l)) a b.
Proof.
  unfold slice, slice_len.
  pose proof (slice_bound_range (Z.of_nat (length l)) a ltac:(lia)).
  pose proof (slice_bound_range (Z.of_nat (length l)) b ltac:(lia)).
  rewrite length_take, length_drop. lia.
Qed.

Lemma slice_lookup {A} (a b : Z) (l : list A) (i : nat) :
  Z.of_nat i < slice_len (Z.of_nat (length l)) a b ->
  slice a b l !! i =
    l !! (Z.to_nat (slice_bound (Z.of_nat (length l)) a) + i)%nat.
Proof.
  intros Hi. unfold slice, slice_len in *.
  rewrite lookup_take_lt by lia. apply lookup_drop.
Qed.

Lemma slice_whole {A} (b : Z) (l : list A) :
  Z.of_nat (length l) <= b -> slice 0 b l = l.
Proof.
  intros Hb. unfold slice, slice_bound. simpl.
  destruct (Z.ltb_spec b 0); [lia|].
  rewrite Z.min_r by lia. rewrite Z.min_l by lia. simpl.
  rewrite drop_0. apply take_ge. lia.
Qed.

Lemma Forall_slice {A} (P : A -> Prop) (a b : Z) (l : list A) :
  Forall P l -> Forall P (slice a b l).
Proof. intros Hl. unfold slice. apply Forall_take, Forall_drop, Hl. Qed.

(** A slice of a well shaped array is well shaped. *)
Lemma getslice_well_shaped (data : ndarray) (y1 y2 x1 x2 : Z) :
  well_shaped data -> well_shaped (getslice data y1 y2 x1 x2).
Proof.
  unfold well_shaped, getslice. destruct data as [[[h w] c] l]. simpl.
  intros (Hw0 & Hc0 & Hh & Hrows). split; [unfold slice_len; lia|].
  split; [exact Hc0|]. split.
  - rewrite length_map, slice_length, Hh. reflexivity.
  - apply Forall_map. apply Forall_slice.
    eapply Forall_impl; [exact Hrows|]. simpl. intros row [Hw Hps]. split.
    + rewrite slice_length, Hw. reflexivity.
    + apply Forall_slice. exact Hps.
Qed.

(** The elements of a slice are those of the array, moved by the offsets. *)
Lemma getslice_getitem3 (data : ndarray) (y1 y2 x1 x2 : Z) (i j k : nat) :
  well_shaped data ->
  let h := fst (fst (shape data)) in
  let w := snd (fst (shape data)) in
  Z.of_nat i < slice_len h y1 y2 ->
  Z.of_nat j < slice_len w x1 x2 ->
  getitem3 (getslice data y1 y2 x1 x2) i j k =
    getitem3 data (Z.to_nat (slice_bound h y1) + i)
                  (Z.to_nat (slice_bound w x1) + j) k.
Proof.
  unfold well_shaped, getslice, getitem3. destruct data as [[[h w] c] l].
  simpl. intros (_ & _ & Hh & Hrows) Hi Hj.
  rewrite list_lookup_fmap, slice_lookup by (rewrite Hh; exact Hi).
  rewrite Hh.
  destruct (l !! (Z.to_nat (slice_bound h y1) + i)%nat) as [row|] eqn:Er;
    simpl; [|reflexivity].
  rewrite Forall_lookup in Hrows. destruct (Hrows _ _ Er) as [Hw _].
  rewrite slice_lookup by (rewrite Hw; exact Hj). rewrite Hw. reflexivity.
Qed.

(** [CentralCrop.process] for integer sizes. *)
Lemma CentralCrop_process_run (name : string) (p sz : pyval)
  (width height h w c : Z) (data : ndarray) (g : rng) :
  shape data = (h, w, c) ->
  CentralCrop_process
    {| aug_name := name; percentage := p;
       own := ccrop sz (PInt width) (PInt height) |} data g =
    (Ok (getslice data ((h - height) / 2) ((h - height) / 2 + height)
                       ((w - width) / 2) ((w - width) / 2 + width)), g).
Proof.
  intros Hs. unfold CentralCrop_process. cbn [own]. rewrite Hs. reflexivity.
Qed.

(** X13.  [CentralCrop.process] with the width and the height of the image
    returns the image as it is. *)
Theorem CentralCrop_full_size (name : string) (p sz : pyval)
  (h w c : Z) (data : ndarray) (g : rng) :
  well_shaped data ->
  shape data = (h, w, c) ->
  CentralCrop_process
    {| aug_name := name; percentage := p; own := ccrop sz (PInt w) (PInt h) |}
    data g = (Ok data, g).
Proof.
  intros Hws Hs. rewrite (CentralCrop_process_run _ _ _ _ _ h w c) by exact Hs.
  rewrite !Z.sub_diag. change (0 / 2) with 0. simpl.
  f_equal. f_equal.
  unfold well_shaped in Hws. unfold getslice.
  destruct data as [sh l]. simpl in *. subst sh. simpl in Hws.
  destruct Hws as (Hw0 & Hc0 & Hh & Hrows). f_equal.
  - unfold slice_len, slice_bound. rewrite !Z.add_0_l.
    change (0 <? 0) with false. cbv iota.
    destruct (Z.ltb_spec h 0), (Z.ltb_spec w 0); f_equal; try f_equal; lia.
  - rewrite slice_whole by lia.
    rewrite <- (list_fmap_id l) at 2. apply Forall_fmap_ext_1.
    eapply Forall_impl; [exact Hrows|]. simpl. intros row [Hw _].
    apply slice_whole. lia.
Qed.

Lemma slice_bound_inside (n a : Z) : 0 <= a <= n -> slice_bound n a = a.
Proof. intros Ha. unfold slice_bound. destruct (Z.ltb_spec a 0); lia. Qed.

Lemma slice_bound_nonneg (n b : Z) : 0 <= b -> slice_bound n b = Z.min b n.
Proof. intros Hb. unfold slice_bound. destruct (Z.ltb_spec b 0); lia. Qed.

Lemma slice_bound_neg (n a : Z) : a < 0 -> slice_bound n a = Z.max 0 (a + n).
Proof. intros Ha. unfold slice_bound. destruct (Z.ltb_spec a 0); lia. Qed.

Lemma slice_len_inside (n a k : Z) :
  0 <= a -> 0 <= k -> a + k <= n -> slice_len n a (a + k) = k.
Proof.
  intros Ha Hk Hn. unfold slice_len.
  rewrite !slice_bound_inside by lia. lia.
Qed.

(** Half a margin, rounded down. *)
Lemma half_margin (m : Z) : 2 * (m / 2) <= m <= 2 * (m / 2) + 1.
Proof.
  pose proof (Z.div_mod m 2 ltac:(lia)).
  pose proof (Z.mod_pos_bound m 2 ltac:(lia)). lia.
Qed.

(** X14.  [CentralCrop.process] with sizes that fit the image returns the
    window of exactly that height and width whose margins on either side
    differ by at most one, the smaller one first; the image is not changed
    within the window and the generator is not used. *)
Theorem CentralCrop_process_window (name : string) (p sz : pyval)
  (W H h w c : Z) (data : ndarray) (g : rng) :
  well_shaped data ->
  shape data = (h, w, c) ->
  0 <= W <= w ->
  0 <= H <= h ->
  let dx := (w - W) / 2 in
  let dy := (h - H) / 2 in
  exists out,
    CentralCrop_process
      {| aug_name := name; percentage := p;
         own := ccrop sz (PInt W) (PInt H) |} data g = (Ok out, g)
    /\ shape out = (H, W, c)
    /\ well_shaped out
    /\ 0 <= dx /\ dx <= w - W - dx /\ w - W - dx <= dx + 1
    /\ 0 <= dy /\ dy <= h - H - dy /\ h - H - dy <= dy + 1
    /\ forall i j k : nat,
         Z.of_nat i < H -> Z.of_nat j < W ->
         getitem3 out i j k =
           getitem3 data (Z.to_nat dy + i) (Z.to_nat dx + j) k.
Proof.
  intros Hws Hs HW HH dx dy.
  pose proof (half_margin (w - W)) as Hx. fold dx in Hx.
  pose proof (half_margin (h - H)) as Hy. fold dy in Hy.
  eexists. split; [apply (CentralCrop_process_run _ _ _ _ _ h w c); exact Hs|].
  fold dx dy.
  assert (Hshape : shape (getslice data dy (dy + H) dx (dx + W)) = (H, W, c)).
  { unfold getslice. rewrite Hs. simpl.
    rewrite !slice_len_inside by lia. reflexivity. }
  split; [exact Hshape|].
  split; [apply getslice_well_shaped; exact Hws|].
  repeat (split; [lia|]).
  intros i j k Hi Hj.
  rewrite getslice_getitem3; rewrite ?Hs; cbn [fst snd];
    rewrite ?slice_len_inside by lia; try assumption.
  rewrite !slice_bound_inside by lia. reflexivity.
Qed.

(** X15.  [CentralCrop.process] with a width above that of the image does
    not return the whole width: the offset is negative and counts from the
    right edge, so the result holds the last [(W - w + 1) // 2] columns (all
    of them only when that is at least the width), and a width one above
    the image's gives a single column. *)
Theorem CentralCrop_process_too_wide (name : string) (p sz : pyval)
  (W H h w c : Z) (data : ndarray) (g : rng) :
  well_shaped data ->
  shape data = (h, w, c) ->
  w < W ->
  0 <= H <= h ->
  let m := Z.min w ((W - w + 1) / 2) in
  let dy := (h - H) / 2 in
  exists out,
    CentralCrop_process
      {| aug_name := name; percentage := p;
         own := ccrop sz (PInt W) (PInt H) |} data g = (Ok out, g)
    /\ shape out = (H, m, c)
    /\ well_shaped out
    /\ (0 < w -> 0 < m)
    /\ (W = w + 1 -> 0 < w -> m = 1)
    /\ forall i j k : nat,
         Z.of_nat i < H -> Z.of_nat j < m ->
         getitem3 out i j k =
           getitem3 data (Z.to_nat dy + i) (Z.to_nat (w - m) + j) k.
Proof.
  intros Hws Hs HW HH m dy.
  assert (Hw0 : 0 <= w).
  { destruct Hws as (Hw0 & _). rewrite Hs in Hw0. exact Hw0. }
  pose proof (half_margin (h - H)) as Hy. fold dy in Hy.
  pose proof (half_margin (w - W)) as Hx.
  pose proof (half_margin (W - w + 1)) as Hm.
  set (dx := (w - W) / 2) in *. set (k0 := (W - w + 1) / 2) in *.
  assert (Hdx : dx = - k0).
  { pose proof (Z.div_mod (w - W) 2 ltac:(lia)).
    pose proof (Z.mod_pos_bound (w - W) 2 ltac:(lia)).
    pose proof (Z.div_mod (W - w + 1) 2 ltac:(lia)).
    pose proof (Z.mod_pos_bound (W - w + 1) 2 ltac:(lia)).
    fold dx in H0. fold k0 in H2. lia. }
  assert (Hlen : slice_len w dx (dx + W) = m
                 /\ slice_bound w dx = w - m).
  { unfold slice_len. rewrite (slice_bound_neg w dx) by lia.
    rewrite (slice_bound_nonneg w (dx + W)) by lia. subst m. lia. }
  destruct Hlen as [Hlen Hstart].
  eexists. split; [apply (CentralCrop_process_run _ _ _ _ _ h w c); exact Hs|].
  fold dx dy.
  split.
  { unfold getslice. rewrite Hs. simpl. rewrite Hlen.
    rewrite slice_len_inside by lia. reflexivity. }
  split; [apply getslice_well_shaped; exact Hws|].
  split; [subst m; lia|].
  split.
  { intros -> Hw. subst m k0.
    replace (w + 1 - w + 1) with 2 by lia. change (2 / 2) with 1. lia. }
  intros i j k Hi Hj.
  rewrite getslice_getitem3; rewrite ?Hs; cbn [fst snd];
    rewrite ?slice_len_inside by lia; rewrite ?Hlen; try assumption.
  rewrite Hstart. rewrite slice_bound_inside by lia. reflexivity.
Qed.

(** [RandomCrop.process] for integer sizes: a slice at offsets that are 0 on
    an axis the size covers, and within the margin otherwise. *)
Lemma RandomCrop_process_slice (name : string) (p sz : pyval)
  (W H h w c : Z) (data : ndarray) (g : rng) :
  shape data = (h, w, c) ->
  exists dx dy g',
    RandomCrop_process
      {| aug_name := name; percentage := p;
         own := rcrop sz (PInt W) (PInt H) |} data g =
      (Ok (getslice data dy (dy + H) dx (dx + W)), g')
    /\ 0 <= dx <= Z.max 0 (w - W)
    /\ 0 <= dy <= Z.max 0 (h - H).
Proof.
  intros Hs. unfold RandomCrop_process. cbn [own]. rewrite Hs.
  unfold bind, lift_outcome, as_int, ret. cbv beta iota.
  destruct (Z.ltb_spec W w) as [Hw|Hw].
  - rewrite (randint_run 0 (w - W)) by lia.
    pose proof (randint_range 0 (w - W) g ltac:(lia)) as Hdx.
    set (g1 := {| py_random := _; np_random := _ |}).
    destruct (Z.ltb_spec H h) as [Hh|Hh].
    + rewrite (randint_run 0 (h - H)) by lia.
      pose proof (randint_range 0 (h - H) g1 ltac:(lia)) as Hdy.
      eexists _, _, _. split; [reflexivity|]. lia.
    + exists (0 + fst (draw (w - W - 0 + 1) (py_random g))), 0, g1.
      split; [reflexivity|]. lia.
  - destruct (Z.ltb_spec H h) as [Hh|Hh].
    + rewrite (randint_run 0 (h - H)) by lia.
      pose proof (randint_range 0 (h - H) g ltac:(lia)) as Hdy.
      eexists 0, _, _. split; [reflexivity|]. lia.
    + exists 0, 0, g. split; [reflexivity|]. lia.
Qed.

(** X16.  [RandomCrop.process] with non-negative sizes returns a window
    that lies inside the image, of the asked height and width or those of
    the image where they are smaller, with the image's own elements; a size
    above the image is cut down, not wrapped around as in [CentralCrop]. *)
Theorem RandomCrop_process_window (name : string) (p sz : pyval)
  (W H h w c : Z) (data : ndarray) (g : rng) :
  well_shaped data ->
  shape data = (h, w, c) ->
  0 <= W ->
  0 <= H ->
  exists out dx dy g',
    RandomCrop_process
      {| aug_name := name; percentage := p;
         own := rcrop sz (PInt W) (PInt H) |} data g = (Ok out, g')
    /\ shape out = (Z.min h H, Z.min w W, c)
    /\ well_shaped out
    /\ 0 <= dx /\ dx + Z.min w W <= w
    /\ 0 <= dy /\ dy + Z.min h H <= h
    /\ forall i j k : nat,
         Z.of_nat i < Z.min h H -> Z.of_nat j < Z.min w W ->
         getitem3 out i j k =
           getitem3 data (Z.to_nat dy + i) (Z.to_nat dx + j) k.
Proof.
  intros Hws Hs HW HH.
  assert (Hw0 : 0 <= w).
  { destruct Hws as (Hw0 & _). rewrite Hs in Hw0. exact Hw0. }
  assert (Hh0 : 0 <= h).
  { destruct Hws as (_ & _ & Hh & _). rewrite Hs in Hh. simpl in Hh. lia. }
  destruct (RandomCrop_process_slice name p sz W H h w c data g Hs)
    as (dx & dy & g' & Hrun & Hdx & Hdy).
  assert (Hlx : slice_len w dx (dx + W) = Z.min w W).
  { unfold slice_len. rewrite (slice_bound_inside w dx) by lia.
    rewrite (slice_bound_nonneg w (dx + W)) by lia. lia. }
  assert (Hly : slice_len h dy (dy + H) = Z.min h H).
  { unfold slice_len. rewrite (slice_bound_inside h dy) by lia.
    rewrite (slice_bound_nonneg h (dy + H)) by lia. lia. }
  exists (getslice data dy (dy + H) dx (dx + W)), dx, dy, g'.
  split; [exact Hrun|].
  split.
  { unfold getslice. rewrite Hs. simpl. rewrite Hlx, Hly. reflexivity. }
  split; [apply getslice_well_shaped; exact Hws|].
  repeat (split; [lia|]).
  intros i j k Hi Hj.
  rewrite getslice_getitem3; rewrite ?Hs; cbn [fst snd];
    rewrite ?Hlx, ?Hly; try assumption.
  rewrite !slice_bound_inside by lia. reflexivity.
Qed.

Lemma CentralCrop_full_size_witness :
  CentralCrop_process
    {| aug_name := "ccrop"; percentage := PInt 100;
       own := ccrop PNone (PInt 4) (PInt 3) |}
    image_3x4x1 {| py_random := [7]; np_random := [] |} =
    (Ok image_3x4x1, {| py_random := [7]; np_random := [] |}).
Proof.
  exact (CentralCrop_full_size "ccrop" (PInt 100) PNone 3 4 1 image_3x4x1
           {| py_random := [7]; np_random := [] |}
           ltac:(unfold well_shaped; simpl; repeat split; try lia;
                 repeat constructor)
           eq_refl).
Defined.

Lemma CentralCrop_process_window_witness :
  exists out,
    CentralCrop_process
      {| aug_name := "ccrop"; percentage := PInt 100;
         own := ccrop PNone (PInt 2) (PInt 1) |}
      image_3x4x1 {| py_random := []; np_random := [] |} =
      (Ok out, {| py_random := []; np_random := [] |})
    /\ shape out = (1, 2, 1)
    /\ getitem3 out 0 0 0 = Some 6
    /\ getitem3 out 0 1 0 = Some 7.
Proof.
  destruct (CentralCrop_process_window "ccrop" (PInt 100) PNone 2 1 3 4 1
              image_3x4x1 {| py_random := []; np_random := [] |}
              ltac:(unfold well_shaped; simpl; repeat split; try lia;
                    repeat constructor)
              eq_refl ltac:(lia) ltac:(lia))
    as (out & Hrun & Hshape & _ & _ & _ & _ & _ & _ & _ & Hpx).
  exists out. split; [exact Hrun|]. split; [exact Hshape|].
  split; [rewrite (Hpx 0%nat 0%nat 0%nat) by lia; reflexivity|].
  rewrite (Hpx 0%nat 1%nat 0%nat) by lia. reflexivity.
Defined.

Lemma CentralCrop_process_too_wide_witness :
  exists out,
    CentralCrop_process
      {| aug_name := "ccrop"; percentage := PInt 100;
         own := ccrop PNone (PInt 5) (PInt 3) |}
      image_3x4x1 {| py_random := []; np_random := [] |} =
      (Ok out, {| py_random := []; np_random := [] |})
    /\ shape out = (3, 1, 1)
    /\ getitem3 out 0 0 0 = Some 4
    /\ getitem3 out 2 0 0 = Some 12.
Proof.
  destruct (CentralCrop_process_too_wide "ccrop" (PInt 100) PNone 5 3 3 4 1
              image_3x4x1 {| py_random := []; np_random := [] |}
              ltac:(unfold well_shaped; simpl; repeat split; try lia;
                    repeat constructor)
              eq_refl ltac:(lia) ltac:(lia))
    as (out & Hrun & Hshape & _ & _ & _ & Hpx).
  exists out. split; [exact Hrun|]. split; [exact Hshape|].
  split; [rewrite (Hpx 0%nat 0%nat 0%nat) by (vm_compute; reflexivity); reflexivity|].
  rewrite (Hpx 2%nat 0%nat 0%nat) by (vm_compute; reflexivity). reflexivity.
Defined.

Lemma RandomCrop_process_window_witness :
  exists out dx dy g',
    RandomCrop_process
      {| aug_name := "rcrop"; percentage := PInt 100;
         own := rcrop PNone (PInt 9) (PInt 2) |}
      image_3x4x1 {| py_random := [1]; np_random := [] |} = (Ok out, g')
    /\ shape out = (2, 4, 1)
    /\ 0 <= dx /\ dx + 4 <= 4
    /\ 0 <= dy /\ dy + 2 <= 3.
Proof.
  destruct (RandomCrop_process_window "rcrop" (PInt 100) PNone 9 2 3 4 1
              image_3x4x1 {| py_random := [1]; np_random := [] |}
              ltac:(unfold well_shaped; simpl; repeat split; try lia;
                    repeat constructor)
              eq_refl ltac:(lia) ltac:(lia))
    as (out & dx & dy & g' & Hrun & Hshape & _ & Hx0 & Hx1 & Hy0 & Hy1 & _).
  exists out, dx, dy, g'. split; [exact Hrun|]. split; [exact Hshape|].
  split; [exact Hx0|]. split; [exact Hx1|]. split; [exact Hy0|]. exact Hy1.
Defined.

(** * Further properties of the salt and pepper noise *)

(** ** The sign of the counts *)

Lemma round_half_even_nonneg (x : Q) : (0 <= x)%Q -> 0 <= round_half_even x.
Proof.
  intros Hx. unfold round_half_even.
  assert (Hf : 0 <= Qfloor x).
  { change 0 with (Qfloor 0). apply Qfloor_resp_le. exact Hx. }
  destruct (_ ?= _)%Q; [destruct (Z.even _)|..]; lia.
Qed.

Lemma round_half_even_nonpos (x : Q) : (x <= 0)%Q -> round_half_even x <= 0.
Proof.
  intros Hx. unfold round_half_even.
  assert (Hf : Qfloor x <= 0).
  { change 0 with (Qfloor 0). apply Qfloor_resp_le. exact Hx. }
  destruct (Z.eq_dec (Qfloor x) 0) as [E|E].
  - rewrite E.
    destruct (Qcompare_spec (x - inject_Z 0) (1 # 2)) as [He|Hl|Hg];
      [exfalso|lia|exfalso]; change (inject_Z 0) with 0%Q in *; lra.
  - destruct (_ ?= _)%Q; [destruct (Z.even _)|..]; lia.
Qed.

Lemma pow2_pos (e : Z) : (0 < 2 ^ e)%Q.
Proof. apply Qpower_0_lt. reflexivity. Qed.

Lemma float_round_nonneg (q : Q) : (0 <= q)%Q -> (0 <= float_round q)%Q.
Proof.
  intros Hq. unfold float_round. destruct (Qeq_bool q 0); [apply Qle_refl|].
  cbv zeta. apply Qmult_le_0_compat; [|apply Qlt_le_weak, pow2_pos].
  change 0%Q with (inject_Z 0). rewrite <- Zle_Qle.
  apply round_half_even_nonneg.
  apply Qmult_le_0_compat; [exact Hq|].
  apply Qinv_le_0_compat, Qlt_le_weak, pow2_pos.
Qed.

Lemma float_round_nonpos (q : Q) : (q <= 0)%Q -> (float_round q <= 0)%Q.
Proof.
  intros Hq. unfold float_round. destruct (Qeq_bool q 0); [apply Qle_refl|].
  cbv zeta.
  set (p := (2 ^ (ilog2 q - 52))%Q).
  assert (Hp : (0 < p)%Q) by apply pow2_pos.
  assert (Hm : round_half_even (q / p) <= 0).
  { apply round_half_even_nonpos.
    rewrite <- (Qmult_0_l (/ p)). unfold Qdiv.
    apply Qmult_le_compat_r; [exact Hq|].
    apply Qinv_le_0_compat, Qlt_le_weak, Hp. }
  rewrite <- (Qmult_0_l p).
  apply Qmult_le_compat_r; [|apply Qlt_le_weak, Hp].
  change 0%Q with (inject_Z 0). rewrite <- Zle_Qle. exact Hm.
Qed.

Lemma to_float_nonneg (x : number) :
  (0 <= num_value x)%Q -> (0 <= to_float x)%Q.
Proof.
  destruct x as [z|q]; simpl; [apply float_round_nonneg | trivial].
Qed.

Lemma to_float_le_1 (x : number) :
  (num_value x <= 1)%Q -> (to_float x <= 1)%Q.
Proof.
  destruct x as [z|q]; simpl; [|trivial].
  intros Hz. change 1%Q with (inject_Z 1) in Hz. rewrite <- Zle_Qle in Hz.
  destruct (Z.eq_dec z 1) as [->|Hne].
  - unfold Qle. vm_compute. discriminate.
  - apply Qle_trans with (y := 0%Q); [|unfold Qle; simpl; lia].
    apply float_round_nonpos. change 0%Q with (inject_Z 0).
    rewrite <- Zle_Qle. lia.
Qed.

Lemma num_mul_nonneg (x y : number) :
  (0 <= num_value x)%Q -> (0 <= num_value y)%Q ->
  (0 <= num_value (num_mul x y))%Q.
Proof.
  intros Hx Hy.
  pose proof (to_float_nonneg x Hx) as Hfx.
  pose proof (to_float_nonneg y Hy) as Hfy.
  destruct x as [a|a], y as [b|b]; simpl in *;
    try (apply float_round_nonneg, Qmult_le_0_compat; assumption).
  change 0%Q with (inject_Z 0) in *. rewrite <- Zle_Qle in *. nia.
Qed.

Lemma num_sub_1_nonneg (s : number) :
  (num_value s <= 1)%Q -> (0 <= num_value (num_sub (NFloat 1) s))%Q.
Proof.
  intros Hs. pose proof (to_float_le_1 s Hs) as Hf.
  destruct s as [z|q]; simpl in *; apply float_round_nonneg; lra.
Qed.

Lemma np_ceil_nonneg (x : number) : (0 <= num_value x)%Q -> 0 <= np_ceil x.
Proof.
  intros Hx. apply Qceiling_nonneg, to_float_nonneg, Hx.
Qed.

(** The two counts of [SNPNoise.process] are not negative for an amount
    that is not negative and a ratio between 0 and 1. *)
Lemma snp_counts_nonneg (a s : number) (n : Z) :
  (0 <= num_value a)%Q -> (0 <= num_value s)%Q -> (num_value s <= 1)%Q ->
  0 <= n ->
  0 <= np_ceil (num_mul (num_mul a (NInt n)) s)
  /\ 0 <= np_ceil (num_mul (num_mul a (NInt n)) (num_sub (NFloat 1) s)).
Proof.
  intros Ha Hs0 Hs1 Hn.
  assert (Han : (0 <= num_value (num_mul a (NInt n)))%Q).
  { apply num_mul_nonneg; [exact Ha|]. simpl.
    change 0%Q with (inject_Z 0). rewrite <- Zle_Qle. exact Hn. }
  split; apply np_ceil_nonneg, num_mul_nonneg; try assumption.
  apply num_sub_1_nonneg. exact Hs1.
Qed.

(** ** The rows that an assignment selects *)

Lemma filled_filled (v v' : Z) (row : list (list Z)) :
  filled v (filled v' row) = filled v row.
Proof.
  unfold filled. rewrite map_map. apply map_ext. intros p.
  rewrite map_map. reflexivity.
Qed.

(** Assigning the rows [idx]: a row among them is filled, another is
    kept. *)
Lemma foldr_alter_filled (v : Z) (idx : list nat) (l : list (list (list Z)))
  (i : nat) :
  foldr (fun i l => alter (filled v) i l) l idx !! i =
    if bool_decide (i ∈ idx) then filled v <$> l !! i else l !! i.
Proof.
  induction idx as [|a idx IH]; cbn [foldr].
  - case_bool_decide as Hin; [|reflexivity].
    apply elem_of_nil in Hin. contradiction.
  - destruct (decide (i = a)) as [->|Hne].
    + rewrite list_lookup_alter_eq, IH.
      rewrite (bool_decide_eq_true_2 (a ∈ a :: idx))
        by (apply elem_of_cons; left; reflexivity).
      case_bool_decide; [|reflexivity].
      destruct (l !! a) as [row|]; simpl; [|reflexivity].
      rewrite filled_filled. reflexivity.
    + rewrite list_lookup_alter_ne by congruence. rewrite IH.
      destruct (decide (i ∈ idx)) as [Hin|Hnin].
      * rewrite (bool_decide_eq_true_2 _ Hin).
        rewrite bool_decide_eq_true_2; [reflexivity|].
        apply elem_of_cons. right. exact Hin.
      * rewrite (bool_decide_eq_false_2 _ Hnin).
        rewrite bool_decide_eq_false_2; [reflexivity|].
        rewrite elem_of_cons. tauto.
Qed.

(** Indices that are not negative: all of them are on the axis, or one is
    beyond it and the assignment raises. *)
Lemma axis_indices_cases (n : Z) (idx : list Z) :
  Forall (fun x => 0 <= x) idx ->
  Forall (fun x => x < n) idx /\ axis_indices n idx = Ok (map Z.to_nat idx)
  \/ Exists (fun x => n <= x) idx /\ axis_indices n idx = Raise IndexError.
Proof.
  induction 1 as [|x idx Hx Hidx IH]; simpl.
  - left. split; [constructor|reflexivity].
  - unfold axis_index. destruct (Z.ltb_spec x 0); [lia|].
    destruct (Z.leb_spec 0 x); [|lia].
    destruct (Z.ltb_spec x n) as [Hlt|Hge]; simpl.
    + destruct IH as [[Hall ->]|[Hex ->]]; simpl.
      * left. split; [constructor; assumption|reflexivity].
      * right. split; [apply Exists_cons_tl, Hex|reflexivity].
    + right. split; [apply Exists_cons_hd, Hge|reflexivity].
Qed.

(** [SNPNoise.process] for a numeric amount and ratio: the two passes with
    the counts computed from them. *)
Lemma SNPNoise_process_counts (name : string) (p vs va : pyval)
  (s a : number) (data : ndarray) (g : rng) :
  as_num va = Ok a -> as_num vs = Ok s ->
  SNPNoise_process
    {| aug_name := name; percentage := p; own := snp_noise vs va |} data g =
  snp_paint data
    (np_ceil (num_mul (num_mul a (NInt (size data))) s))
    (np_ceil (num_mul (num_mul a (NInt (size data)))
                      (num_sub (NFloat 1) s))) g.
Proof.
  intros Ha Hvs. unfold SNPNoise_process. cbn [own].
  unfold bind, lift_outcome. rewrite Ha, Hvs. reflexivity.
Qed.

(** One pass with no coordinate changes nothing and draws nothing. *)
Lemma snp_pass_0 (out : ndarray) (v : Z) (g : rng) :
  snp_pass out 0 v g = (Ok out, g).
Proof.
  unfold snp_pass. destruct out as [[[h w] c] l]. simpl. reflexivity.
Qed.

(** One pass on an array with an axis of length 1 or 0: any coordinate
    asked for ends in [ValueError]. *)
Lemma snp_pass_degenerate (out : ndarray) (h w c num v : Z) (g : rng) :
  shape out = (h, w, c) ->
  h <= 1 \/ w <= 1 \/ c <= 1 ->
  num <> 0 ->
  fst (snp_pass out num v g) = Raise ValueError.
Proof.
  intros Hs Hax Hnum. unfold snp_pass. rewrite Hs. unfold bind.
  destruct (np_random_randint_cases 0 (h - 1) num g)
    as [[-> _]|(rows & g1 & -> & _ & [[H0 _]|[_ Hh]])];
    [reflexivity|contradiction|].
  destruct (np_random_randint_cases 0 (w - 1) num g1)
    as [[-> _]|(cols & g2 & -> & _ & [[H0 _]|[_ Hw]])];
    [reflexivity|contradiction|].
  destruct (np_random_randint_cases 0 (c - 1) num g2)
    as [[-> _]|(chans & g3 & -> & _ & [[H0 _]|[_ Hc]])];
    [reflexivity|contradiction|].
  lia.
Qed.

(** X17.  On an image with an axis of length 1 or 0, such as a grey image of
    one channel, [SNPNoise.process] never sets an element: it returns the
    image as it is, without a draw, when both counts are 0, and ends in
    [ValueError] when one of them is not, as
    [numpy.random.randint(0, i - 1, count)] is then asked for integers of
    an empty range. *)
Theorem SNPNoise_process_degenerate_axis (name : string) (p vs va : pyval)
  (s a : number) (data : ndarray) (h w c : Z) (g : rng) :
  shape data = (h, w, c) ->
  h <= 1 \/ w <= 1 \/ c <= 1 ->
  as_num va = Ok a -> as_num vs = Ok s ->
  let self := {| aug_name := name; percentage := p;
                 own := snp_noise vs va |} in
  let num_salt := np_ceil (num_mul (num_mul a (NInt (size data))) s) in
  let num_pepper :=
    np_ceil (num_mul (num_mul a (NInt (size data)))
                     (num_sub (NFloat 1) s)) in
  (num_salt = 0 -> num_pepper = 0 ->
   SNPNoise_process self data g = (Ok data, g))
  /\ (num_salt <> 0 \/ num_pepper <> 0 ->
      fst (SNPNoise_process self data g) = Raise ValueError).
Proof.
  intros Hs Hax Ha Hvs. cbv zeta.
  rewrite (SNPNoise_process_counts name p vs va s a data g Ha Hvs).
  set (ns := np_ceil (num_mul (num_mul a (NInt (size data))) s)).
  set (np := np_ceil (num_mul (num_mul a (NInt (size data)))
                              (num_sub (NFloat 1) s))).
  unfold snp_paint, bind. split.
  - intros -> ->. rewrite !snp_pass_0. reflexivity.
  - intros Hnum. destruct (Z.eq_dec ns 0) as [E|Hne].
    + rewrite E, snp_pass_0. destruct Hnum as [Hnum|Hnum]; [contradiction|].
      pose proof (snp_pass_degenerate data h w c np 0 g Hs Hax Hnum)
        as Hpass.
      destruct (snp_pass data np 0 g) as [[out2|e] g2]; exact Hpass.
    + pose proof (snp_pass_degenerate data h w c ns 255 g Hs Hax Hne)
        as Hpass.
      destruct (snp_pass data ns 255 g) as [[out1|e] g1]; simpl in Hpass.
      * discriminate Hpass.
      * exact Hpass.
Qed.

(** One pass on an array with axes of length 2 at least: the rows are kept
    or assigned whole, or an integer drawn for a longer axis is beyond the
    first axis. *)
Lemma snp_pass_cases (out : ndarray) (h w c num v : Z) (g : rng) :
  shape out = (h, w, c) ->
  2 <= h -> 2 <= w -> 2 <= c -> 0 <= num ->
  (exists out' g',
      snp_pass out num v g = (Ok out', g')
      /\ shape out' = (h, w, c)
      /\ rows_painted v out' out
      /\ (w <= h -> c <= h ->
          px out' !! Z.to_nat (h - 1) = px out !! Z.to_nat (h - 1)))
  \/ (exists g',
        snp_pass out num v g = (Raise IndexError, g')
        /\ (h + 1 < w \/ h + 1 < c)).
Proof.
  intros Hs Hh Hw Hc Hn. unfold snp_pass. rewrite Hs. unfold bind.
  destruct (np_random_randint_run 0 (h - 1) num g ltac:(lia) Hn)
    as (rows & g1 & -> & _ & Hrows).
  destruct (np_random_randint_run 0 (w - 1) num g1 ltac:(lia) Hn)
    as (cols & g2 & -> & _ & Hcols).
  destruct (np_random_randint_run 0 (c - 1) num g2 ltac:(lia) Hn)
    as (chans & g3 & -> & _ & Hchans).
  unfold lift_outcome, setitem_coords. rewrite Hs.
  set (idx := rows ++ cols ++ chans).
  assert (Hidx : Forall (fun x => 0 <= x
                           /\ (x < h - 1 \/ x < w - 1 \/ x < c - 1)) idx).
  { unfold idx. rewrite !Forall_app. repeat split.
    - eapply Forall_impl; [exact Hrows|]. simpl. intros x Hx. lia.
    - eapply Forall_impl; [exact Hcols|]. simpl. intros x Hx. lia.
    - eapply Forall_impl; [exact Hchans|]. simpl. intros x Hx. lia. }
  destruct (axis_indices_cases h idx) as [[Hall ->]|[Hex ->]].
  { eapply Forall_impl; [exact Hidx|]. simpl. intros x Hx. lia. }
  - left. simpl. eexists _, _. split; [reflexivity|].
    split; [simpl; congruence|]. split.
    + intros i. simpl. rewrite foldr_alter_filled.
      destruct (bool_decide _); [right|left]; reflexivity.
    + intros Hwh Hch. simpl. rewrite foldr_alter_filled.
      rewrite bool_decide_eq_false_2; [reflexivity|].
      rewrite list_elem_of_fmap. intros (x & Hx & Hin).
      rewrite Forall_forall in Hidx. specialize (Hidx x Hin). lia.
  - right. simpl. eexists. split; [reflexivity|].
    rewrite Exists_exists in Hex. destruct Hex as (x & Hin & Hx).
    rewrite Forall_forall in Hidx. specialize (Hidx x Hin). lia.
Qed.

(** An element of a filled row. *)
Lemma getitem3_filled (v : Z) (a b : ndarray) (i j k : nat) :
  px a !! i = filled v <$> px b !! i ->
  getitem3 a i j k = (fun _ => v) <$> getitem3 b i j k.
Proof.
  intros Hrow. unfold getitem3. rewrite Hrow.
  destruct (px b !! i) as [row|]; simpl; [|reflexivity].
  unfold filled. rewrite list_lookup_fmap.
  destruct (row !! j) as [q|]; simpl; [|reflexivity].
  apply list_lookup_fmap.
Qed.

Lemma getitem3_same_row (a b : ndarray) (i j k : nat) :
  px a !! i = px b !! i -> getitem3 a i j k = getitem3 b i j k.
Proof. intros Hrow. unfold getitem3. rewrite Hrow. reflexivity. Qed.

(** X18.  Where [SNPNoise.process] applies (axes of length 2 at least, an
    amount that is not negative, a ratio between 0 and 1) it either returns
    an image of the same shape in which every row is the row of the input or
    has been set whole to 255 or to 0, so that every element is the input's,
    255 or 0; or it ends in [IndexError], which takes a width or a number of
    channels above the height plus one.  The last row is never set when the
    height is at least the width and the number of channels. *)
Theorem SNPNoise_process_only_paints (name : string) (p vs va : pyval)
  (s a : number) (data : ndarray) (h w c : Z) (g : rng) :
  shape data = (h, w, c) ->
  2 <= h -> 2 <= w -> 2 <= c ->
  as_num va = Ok a -> as_num vs = Ok s ->
  (0 <= num_value a)%Q -> (0 <= num_value s)%Q -> (num_value s <= 1)%Q ->
  let self := {| aug_name := name; percentage := p;
                 own := snp_noise vs va |} in
  (exists out g',
      SNPNoise_process self data g = (Ok out, g')
      /\ shape out = shape data
      /\ (forall i : nat,
            px out !! i = px data !! i
            \/ px out !! i = filled 255 <$> px data !! i
            \/ px out !! i = filled 0 <$> px data !! i)
      /\ (forall (i j k : nat) (d : Z),
            getitem3 data i j k = Some d ->
            getitem3 out i j k = Some d
            \/ getitem3 out i j k = Some 255
            \/ getitem3 out i j k = Some 0)
      /\ (w <= h -> c <= h ->
          px out !! Z.to_nat (h - 1) = px data !! Z.to_nat (h - 1)))
  \/ (exists g',
        SNPNoise_process self data g = (Raise IndexError, g')
        /\ (h + 1 < w \/ h + 1 < c)).
Proof.
  intros Hs Hh Hw Hc Ha Hvs Ha0 Hs0 Hs1. cbv zeta.
  rewrite (SNPNoise_process_counts name p vs va s a data g Ha Hvs).
  assert (Hsize : 0 <= size data).
  { unfold size. rewrite Hs. nia. }
  destruct (snp_counts_nonneg a s (size data) Ha0 Hs0 Hs1 Hsize)
    as [Hsalt Hpepper].
  set (ns := np_ceil (num_mul (num_mul a (NInt (size data))) s)) in *.
  set (np := np_ceil (num_mul (num_mul a (NInt (size data)))
                              (num_sub (NFloat 1) s))) in *.
  unfold snp_paint, bind.
  destruct (snp_pass_cases data h w c ns 255 g Hs Hh Hw Hc Hsalt)
    as [(out1 & g1 & -> & Hs1' & Hp1 & Hl1)|(g1 & -> & Hbad)];
    [|right; eexists; split; [reflexivity|exact Hbad]].
  destruct (snp_pass_cases out1 h w c np 0 g1 Hs1' Hh Hw Hc Hpepper)
    as [(out2 & g2 & -> & Hs2 & Hp2 & Hl2)|(g2 & -> & Hbad)];
    [|right; eexists; split; [reflexivity|exact Hbad]].
  left. exists out2, g2. split; [reflexivity|]. split; [congruence|].
  assert (Hrows : forall i : nat,
            px out2 !! i = px data !! i
            \/ px out2 !! i = filled 255 <$> px data !! i
            \/ px out2 !! i = filled 0 <$> px data !! i).
  { intros i. destruct (Hp2 i) as [E2|E2], (Hp1 i) as [E1|E1];
      rewrite E2, E1; auto.
    right. right. destruct (px data !! i) as [row|]; simpl; [|reflexivity].
    rewrite filled_filled. reflexivity. }
  split; [exact Hrows|]. split.
  - intros i j k d Hd. destruct (Hrows i) as [E|[E|E]].
    + left. rewrite (getitem3_same_row _ _ _ _ _ E). exact Hd.
    + right. left. rewrite (getitem3_filled _ _ _ _ _ _ E), Hd. reflexivity.
    + right. right. rewrite (getitem3_filled _ _ _ _ _ _ E), Hd.
      reflexivity.
  - intros Hwh Hch. rewrite Hl2, Hl1 by assumption. reflexivity.
Qed.

Lemma SNPNoise_process_degenerate_axis_witness :
  fst (SNPNoise_process snp_quarter image_2x3x1 tape_np) = Raise ValueError.
Proof.
  refine (proj2 (SNPNoise_process_degenerate_axis "snp_noise" (PInt 100)
                   (PFloat (1 # 2)) (PFloat (1 # 4))
                   (NFloat (1 # 2)) (NFloat (1 # 4))
                   image_2x3x1 2 3 1 tape_np
                   eq_refl ltac:(lia) eq_refl eq_refl) _).
  left. vm_compute. discriminate.
Defined.

Lemma SNPNoise_process_only_paints_witness :
  exists out g',
    SNPNoise_process snp_quarter image_2x2x2 tape_np = (Ok out, g')
    /\ (getitem3 out 0 1 1 = Some 21
        \/ getitem3 out 0 1 1 = Some 255
        \/ getitem3 out 0 1 1 = Some 0)
    /\ px out !! 1%nat = Some [[30; 31]; [40; 41]].
Proof.
  destruct (SNPNoise_process_only_paints "snp_noise" (PInt 100)
              (PFloat (1 # 2)) (PFloat (1 # 4))
              (NFloat (1 # 2)) (NFloat (1 # 4))
              image_2x2x2 2 2 2 tape_np
              eq_refl ltac:(lia) ltac:(lia) ltac:(lia) eq_refl eq_refl
              ltac:(vm_compute; discriminate) ltac:(vm_compute; discriminate)
              ltac:(vm_compute; discriminate))
    as [(out & g' & Hrun & _ & _ & Hpaint & Hlast)|(g' & _ & Hbad)];
    [|exfalso; lia].
  exists out, g'. split; [exact Hrun|]. split.
  - apply Hpaint. reflexivity.
  - apply (Hlast ltac:(lia) ltac:(lia)).
Defined.

(** * Properties of the brightness change *)

(** The elements of an image are those of dtype uint8. *)
Lemma np_where_brighter_run (b : Z) (data : ndarray) :
  0 <= b <= 255 ->
  exists out,
    np_where_brighter b data = Ok out
    /\ shape out = shape data
    /\ forall i j k : nat,
         getitem3 out i j k =
           (fun d => if 255 - d <? b then 255 else (d + b) mod 256)
             <$> getitem3 data i j k.
Proof.
  intros Hb. unfold np_where_brighter.
  destruct (Z.ltb_spec b 0); [lia|]. destruct (Z.ltb_spec 255 b); [lia|].
  simpl. eexists. split; [reflexivity|]. split; [reflexivity|].
  intros i j k. unfold getitem3. simpl.
  rewrite list_lookup_fmap. destruct (px data !! i) as [row|]; simpl;
    [|reflexivity].
  rewrite list_lookup_fmap. destruct (row !! j) as [q|]; simpl;
    [|reflexivity].
  rewrite list_lookup_fmap. reflexivity.
Qed.

(** X19.  [RandomBrightness.process] on an image of dtype uint8 (elements
    0..255), for an interval of integers [0 <= lo <= hi <= 255], draws one
    brightness [b] of [lo..hi] for the whole image and returns an image of
    the same shape in which every element [d] has become [min(255, d + b)]:
    no element is made darker, none leaves 0..255 by wrapping around, and
    the order of two elements is kept. *)
Theorem RandomBrightness_process_saturates (lo hi : Z) (data : ndarray)
  (g : rng) :
  0 <= lo ->
  lo <= hi ->
  hi <= 255 ->
  (forall (i j k : nat) (d : Z),
      getitem3 data i j k = Some d -> 0 <= d <= 255) ->
  exists b out g',
    RandomBrightness_process lo hi data g = (Ok out, g')
    /\ lo <= b <= hi
    /\ shape out = shape data
    /\ (forall i j k : nat,
          getitem3 out i j k =
            (fun d => Z.min 255 (d + b)) <$> getitem3 data i j k)
    /\ (forall (i j k : nat) (d : Z),
          getitem3 data i j k = Some d ->
          exists d', getitem3 out i j k = Some d' /\ d <= d' <= 255)
    /\ (forall (i j k i' j' k' : nat) (d1 d2 : Z),
          getitem3 data i j k = Some d1 ->
          getitem3 data i' j' k' = Some d2 ->
          d1 <= d2 ->
          exists e1 e2,
            getitem3 out i j k = Some e1
            /\ getitem3 out i' j' k' = Some e2 /\ e1 <= e2).
Proof.
  intros Hlo Hhi H255 Hpx. unfold RandomBrightness_process, bind.
  rewrite randint_run by exact Hhi.
  pose proof (randint_range lo hi g Hhi) as Hb.
  set (b := lo + fst (draw (hi - lo + 1) (py_random g))) in *.
  destruct (np_where_brighter_run b data ltac:(lia))
    as (out & Hrun & Hshape & Hget).
  unfold lift_outcome. rewrite Hrun.
  assert (Hmin : forall i j k : nat,
             getitem3 out i j k =
               (fun d => Z.min 255 (d + b)) <$> getitem3 data i j k).
  { intros i j k. rewrite Hget.
    destruct (getitem3 data i j k) as [d|] eqn:Ed; simpl; [|reflexivity].
    specialize (Hpx i j k d Ed). f_equal.
    destruct (Z.ltb_spec (255 - d) b); [lia|].
    rewrite Z.mod_small by lia. lia. }
  eexists b, out, _. split; [reflexivity|]. split; [exact Hb|].
  split; [exact Hshape|]. split; [exact Hmin|]. split.
  - intros i j k d Hd. pose proof (Hpx i j k d Hd).
    rewrite Hmin, Hd. simpl. eexists. split; [reflexivity|]. lia.
  - intros i j k i' j' k' d1 d2 H1 H2 Hle.
    rewrite !Hmin, H1, H2. simpl.
    eexists _, _. split; [reflexivity|]. split; [reflexivity|]. lia.
Qed.

(** * Properties of the resizing by the shorter edge *)

Section ResizeProperties.

Context {R : Type} (cv2_resize : ndarray -> Z * Z -> R).

(** X20.  [resize_by_min_edge] of an image with no empty edge, for a size
    that is not negative, asks [cv2.resize] for a width [tw] and a height
    [th] of which the smaller is [size], on the edge that is the shorter in
    the image (the height when they are equal); the other is the
    proportional length rounded down. *)
Theorem resize_by_min_edge_target (data : ndarray) (h w c size : Z) :
  shape data = (h, w, c) ->
  0 < h -> 0 < w ->
  0 <= size ->
  exists tw th,
    Resizing.resize_by_min_edge cv2_resize data size =
      Value (cv2_resize data (tw, th))
    /\ Z.min tw th = size
    /\ (h <= w -> th = size /\ tw * h <= size * w < (tw + 1) * h)
    /\ (w < h -> tw = size /\ th * w <= size * h < (th + 1) * w)
    /\ (h = w -> tw = size /\ th = size).
Proof.
  intros Hs Hh Hw Hsize.
  unfold Resizing.resize_by_min_edge, shape_at, argmin2, floordiv.
  rewrite Hs.
  destruct (Z.ltb_spec w h) as [Hlt|Hle].
  - change (1 - 1 =? 0) with true. change (1 =? 0) with false.
    change (1 =? 1) with true. cbv iota.
    destruct (Z.eqb_spec w 0); [lia|].
    pose proof (Z.div_mod (size * h) w ltac:(lia)) as Hdm.
    pose proof (Z.mod_pos_bound (size * h) w ltac:(lia)) as Hmb.
    set (q := size * h / w) in *.
    assert (Hq : size <= q) by nia.
    exists size, q. split; [reflexivity|].
    split; [lia|]. split; [lia|]. split; [|lia].
    intros _. split; [reflexivity|]. nia.
  - change (1 - 0 =? 0) with false. change (0 =? 0) with true.
    change (0 =? 1) with false. cbv iota.
    destruct (Z.eqb_spec h 0); [lia|].
    pose proof (Z.div_mod (size * w) h ltac:(lia)) as Hdm.
    pose proof (Z.mod_pos_bound (size * w) h ltac:(lia)) as Hmb.
    set (q := size * w / h) in *.
    assert (Hq : size <= q) by nia.
    exists q, size. split; [reflexivity|].
    split; [lia|]. split; [|split; [lia|]].
    + intros _. split; [reflexivity|]. nia.
    + intros ->. split; [|reflexivity]. nia.
Qed.

(** X21.  [resize_by_min_edge] of an image with an empty edge divides by
    zero: it ends in [ZeroDivisionError], whatever the size, and
    [cv2.resize] is not called. *)
Theorem resize_by_min_edge_empty (data : ndarray) (h w c size : Z) :
  shape data = (h, w, c) ->
  0 <= h -> 0 <= w ->
  h = 0 \/ w = 0 ->
  Resizing.resize_by_min_edge cv2_resize data size = ZeroDivisionError.
Proof.
  intros Hs Hh Hw Hz.
  unfold Resizing.resize_by_min_edge, shape_at, argmin2, floordiv.
  rewrite Hs.
  destruct (Z.ltb_spec w h) as [Hlt|Hle].
  - change (1 =? 0) with false. cbv iota.
    destruct (Z.eqb_spec w 0); [reflexivity|lia].
  - change (0 =? 0) with true. cbv iota.
    destruct (Z.eqb_spec h 0); [reflexivity|lia].
Qed.

End ResizeProperties.

Lemma RandomBrightness_process_saturates_witness :
  exists b out g',
    RandomBrightness_process 10 250 image_3x4x1
      {| py_random := [245]; np_random := [] |} = (Ok out, g')
    /\ 10 <= b <= 250
    /\ getitem3 out 0 0 0 = Some (Z.min 255 (1 + b))
    /\ getitem3 out 2 3 0 = Some (Z.min 255 (12 + b)).
Proof.
  destruct (RandomBrightness_process_saturates 10 250 image_3x4x1
              {| py_random := [245]; np_random := [] |}
              ltac:(lia) ltac:(lia) ltac:(lia)
              ltac:(intros [|[|[|i]]] [|[|[|[|j]]]] [|k] d Hd;
                    vm_compute in Hd; try discriminate Hd;
                    injection Hd as <-; lia))
    as (b & out & g' & Hrun & Hb & _ & Hpx & _).
  exists b, out, g'. split; [exact Hrun|]. split; [exact Hb|].
  rewrite !Hpx. split; reflexivity.
Defined.

Lemma resize_by_min_edge_target_witness :
  exists tw th,
    Resizing.resize_by_min_edge (fun _ dsize => dsize) image_3x4x1 6 =
      Value (tw, th)
    /\ Z.min tw th = 6.
Proof.
  destruct (resize_by_min_edge_target (fun _ dsize => dsize) image_3x4x1
              3 4 1 6 eq_refl ltac:(lia) ltac:(lia) ltac:(lia))
    as (tw & th & Hrun & Hmin & _).
  exists tw, th. split; [exact Hrun | exact Hmin].
Defined.

Lemma resize_by_min_edge_empty_witness :
  Resizing.resize_by_min_edge (fun _ dsize => dsize)
    {| shape := (0, 4, 1); px := [] |} 6 = ZeroDivisionError.
Proof.
  exact (resize_by_min_edge_empty (fun _ dsize => dsize)
           {| shape := (0, 4, 1); px := [] |} 0 4 1 6
           eq_refl ltac:(lia) ltac:(lia) ltac:(left; reflexivity)).
Defined.
